(** * ccext: the retry-driven bulk fetcher of [main.py]

    A shallow embedding of [main.py] and the properties of its retry loop,
    its per-identifier fetch function and its append-only result file.

    The program talks to the network and to the file system from a pool of
    worker threads.  Everything the program cannot decide by itself is read
    from a [World]: the answer to each HTTP request, each [os.path.exists]
    test and each file write, and the time at which each worker finishes.
    The program text itself is embedded as total Rocq functions over that
    world. *)

From Stdlib Require Import ZArith List String Ascii Bool Lia Permutation Decimal.
From Stdlib Require Import DecimalString DecimalN DecimalPos.
Import ListNotations.
Local Open Scope string_scope.
Local Open Scope Z_scope.
Set Warnings "-register-all".

(** ** Python primitives *)

(** A [string] stands for a Python [str], one character for one code
    point: the character with number [n] is the code point [n], so the
    strings of this development are the texts whose code points are below
    256.  The interpreter's limit on the length of a decimal literal (4300
    digits unless configured otherwise) is part of [int_limited], which
    reads the fields of the input file; [format06] and [int_of_str] leave
    it out, and so describe line 84 and line 247 for the identifiers that
    line 180 can deliver. *)

Module Py.

(** The exception classes that occur in the program.  All of them derive
    from [Exception]. *)
Inductive exn : Type :=
  | FileNotFoundError
  | PermissionError
  | OSError
  | ValueError
  | TypeError
  | RequestException
  | UnicodeDecodeError
  | CsvError.

Definition exn_eqb (a b : exn) : bool :=
  match a, b with
  | FileNotFoundError, FileNotFoundError
  | PermissionError, PermissionError
  | OSError, OSError
  | ValueError, ValueError
  | TypeError, TypeError
  | RequestException, RequestException
  | UnicodeDecodeError, UnicodeDecodeError
  | CsvError, CsvError => true
  | _, _ => false
  end.

(** A computation that either returns or raises. *)
Inductive res (A : Type) : Type :=
  | Ok (a : A)
  | Raise (e : exn).
Arguments Ok {A} a.
Arguments Raise {A} e.

(** *** Characters *)

Definition is_digit (c : ascii) : bool :=
  let n := nat_of_ascii c in (Nat.leb 48 n && Nat.leb n 57)%bool.

Definition digit_val (c : ascii) : Z := Z.of_nat (nat_of_ascii c) - 48.

(** White space as [str.split] and the pattern [\S+] see it: the ASCII
    blanks, the separators 28 to 31, NEL and the no-break space. *)
Definition is_space (c : ascii) : bool :=
  let n := nat_of_ascii c in
  (Nat.eqb n 32 || (Nat.leb 9 n && Nat.leb n 13) || (Nat.leb 28 n && Nat.leb n 31)
   || Nat.eqb n 133 || Nat.eqb n 160)%bool.

(** White space as [int] sees it around a literal: the six ASCII blanks,
    and NEL and the no-break space, which [int] turns into blanks first.
    The separators 28 to 31 are not among them. *)
Definition is_int_space (c : ascii) : bool :=
  let n := nat_of_ascii c in
  (Nat.eqb n 32 || (Nat.leb 9 n && Nat.leb n 13)
   || Nat.eqb n 133 || Nat.eqb n 160)%bool.

(** *** [str(n)] and the format [f"{n:06}"] *)

(** Decimal digits of a natural number, no sign, ["0"] for zero. *)
Definition str_N (n : N) : string := NilEmpty.string_of_uint (N.to_uint n).

Fixpoint zeros (k : nat) : string :=
  match k with
  | O => ""
  | S k' => String "0" (zeros k')
  end.

(** [s.rjust(width, "0")] *)
Definition zfill (width : nat) (s : string) : string :=
  zeros (width - String.length s) ++ s.


(** [f"{z:06}"]: sign-aware zero padding to a total width of six. *)
Definition format06 (z : Z) : string :=
  if z <? 0 then String "-" (zfill 5 (str_N (Z.abs_N z)))
  else zfill 6 (str_N (Z.abs_N z)).

(** *** [int(s)] on a string *)

(** The literal without the white space [int] skips at both ends. *)
Fixpoint lstrip (s : string) : string :=
  match s with
  | String c s' => if is_int_space c then lstrip s' else s
  | EmptyString => EmptyString
  end.

Fixpoint rstrip (s : string) : string :=
  match s with
  | String c s' =>
      match rstrip s' with
      | EmptyString => if is_int_space c then EmptyString else String c EmptyString
      | r => String c r
      end
  | EmptyString => EmptyString
  end.

Definition strip (s : string) : string := rstrip (lstrip s).

(** Digits with single underscores between them; [prev] tells whether the
    previous character was a digit (an underscore is only legal there, and
    the literal may not end in one). *)
Fixpoint int_digits (s : string) (acc : Z) (prev : bool) : option Z :=
  match s with
  | EmptyString => if prev then Some acc else None
  | String c s' =>
      if is_digit c then int_digits s' (10 * acc + digit_val c) true
      else if Ascii.eqb c "_" then
             (if prev then int_digits s' acc false else None)
           else None
  end.

(** [int(s)] without the limit on the number of digits: surrounding white
    space, an optional sign, decimal digits.  [None] stands for
    [ValueError]. *)
Definition int_of_str (s : string) : option Z :=
  match strip s with
  | String c d =>
      if Ascii.eqb c "-" then option_map Z.opp (int_digits d 0 false)
      else if Ascii.eqb c "+" then int_digits d 0 false
      else int_digits (String c d) 0 false
  | EmptyString => None
  end.

(** The value of a digit sequence read after [acc]. *)
Fixpoint uint_val (d : Decimal.uint) (acc : Z) : Z :=
  match d with
  | Decimal.Nil => acc
  | Decimal.D0 d' => uint_val d' (10 * acc)
  | Decimal.D1 d' => uint_val d' (10 * acc + 1)
  | Decimal.D2 d' => uint_val d' (10 * acc + 2)
  | Decimal.D3 d' => uint_val d' (10 * acc + 3)
  | Decimal.D4 d' => uint_val d' (10 * acc + 4)
  | Decimal.D5 d' => uint_val d' (10 * acc + 5)
  | Decimal.D6 d' => uint_val d' (10 * acc + 6)
  | Decimal.D7 d' => uint_val d' (10 * acc + 7)
  | Decimal.D8 d' => uint_val d' (10 * acc + 8)
  | Decimal.D9 d' => uint_val d' (10 * acc + 9)
  end.

Definition no_space (s : string) : bool :=
  forallb (fun c => negb (is_int_space c)) (list_ascii_of_string s).

(** [sys.get_int_max_str_digits()], by default. *)
Definition MAX_STR_DIGITS : nat := 4300.

Definition count_digits (s : string) : nat :=
  List.length (filter is_digit (list_ascii_of_string s)).

(** [int(s)]: a literal with more digits than the limit is a
    [ValueError] too. *)
Definition int_limited (s : string) : option Z :=
  if Nat.ltb MAX_STR_DIGITS (count_digits s) then None else int_of_str s.

(** *** [os.path] on POSIX *)

(** Text after the last ["/"]. *)
Fixpoint basename (p : string) : string :=
  match p with
  | EmptyString => EmptyString
  | String c p' =>
      if existsb (Ascii.eqb "/") (list_ascii_of_string p') then basename p'
      else if Ascii.eqb c "/" then p' else p
  end.

(** Split at the last ["."]: [Some (before, "." ++ after)]. *)
Fixpoint split_last_dot (s : string) : option (string * string) :=
  match s with
  | EmptyString => None
  | String c s' =>
      match split_last_dot s' with
      | Some (a, b) => Some (String c a, b)
      | None => if Ascii.eqb c "." then Some (EmptyString, s) else None
      end
  end.

(** [os.path.splitext] on a name without directory part: the extension
    starts at the last dot, unless only dots precede it. *)
Definition splitext (name : string) : string * string :=
  match split_last_dot name with
  | Some (stem, ext) =>
      if forallb (Ascii.eqb ".") (list_ascii_of_string stem)
      then (name, EmptyString)
      else (stem, ext)
  | None => (name, EmptyString)
  end.

(** [os.path.join a b] *)
Definition path_join (a b : string) : string :=
  match b with
  | String "/" _ => b
  | _ =>
      match a with
      | EmptyString => b
      | _ => if String.eqb (substring (String.length a - 1) 1 a) "/"
             then a ++ b else a ++ "/" ++ b
      end
  end.

(** [s.split(sep)[0]] for a one-character separator. *)
Fixpoint before_char (sep : ascii) (s : string) : string :=
  match s with
  | EmptyString => EmptyString
  | String c s' => if Ascii.eqb c sep then EmptyString else String c (before_char sep s')
  end.

(** [sep in s] for a one-character [sep]. *)
Definition contains_char (sep : ascii) (s : string) : bool :=
  existsb (Ascii.eqb sep) (list_ascii_of_string s).

(** [s.split()]: the maximal runs of non-space characters. *)
Fixpoint split_ws_aux (s : string) (cur : string) : list string :=
  match s with
  | EmptyString => match cur with EmptyString => [] | _ => [cur] end
  | String c s' =>
      if is_space c
      then match cur with
           | EmptyString => split_ws_aux s' EmptyString
           | _ => cur :: split_ws_aux s' EmptyString
           end
      else split_ws_aux s' (cur ++ String c EmptyString)
  end.

Definition split_ws (s : string) : list string := split_ws_aux s EmptyString.

End Py.

(** ** The input file: [csv.DictReader] and [get_ids_from_csv] *)

Module Csv.
Import Py.

(** What [open(filename)] followed by [csv.reader] gives: an error when the
    file cannot be opened; else the list of records, each a list of
    fields; or the records read before decoding or parsing the file
    raised an error ([UnicodeDecodeError], [csv.Error]). *)
Inductive input_file : Type :=
  | OpenError (e : exn)
  | Contents (records : list (list string))
  | ReadError (records : list (list string)) (e : exn).

(** Values of a [DictReader] row: a field, the [restval] [None], or the
    list of surplus fields stored under the [restkey]. *)
Inductive value : Type :=
  | VStr (s : string)
  | VNone
  | VList (l : list string).

(** Keys are column names or the [restkey] [None]. *)
Definition key := option string.

Definition key_eqb (a b : key) : bool :=
  match a, b with
  | Some x, Some y => String.eqb x y
  | None, None => true
  | _, _ => false
  end.

(** A Python [dict] in insertion order. *)
Definition dict := list (key * value).

Fixpoint dict_set (d : dict) (k : key) (v : value) : dict :=
  match d with
  | [] => [(k, v)]
  | (k', v') :: d' =>
      if key_eqb k' k then (k', v) :: d' else (k', v') :: dict_set d' k v
  end.

Fixpoint dict_get (d : dict) (k : key) : option value :=
  match d with
  | [] => None
  | (k', v') :: d' => if key_eqb k' k then Some v' else dict_get d' k
  end.

(** [k in d] *)
Definition dict_mem (d : dict) (k : key) : bool :=
  match dict_get d k with Some _ => true | None => false end.

(** [dict(zip(fieldnames, row))] *)
Fixpoint dict_of_zip (fieldnames row : list string) (d : dict) : dict :=
  match fieldnames, row with
  | f :: fs, x :: xs => dict_of_zip fs xs (dict_set d (Some f) (VStr x))
  | _, _ => d
  end.

(** [DictReader.__next__] on a record that is not blank. *)
Definition dict_row (fieldnames row : list string) : dict :=
  let d := dict_of_zip fieldnames row [] in
  let lf := List.length fieldnames in
  let lr := List.length row in
  if Nat.ltb lf lr then dict_set d None (VList (skipn lf row))
  else if Nat.ltb lr lf
       then fold_left (fun d k => dict_set d (Some k) VNone) (skipn lr fieldnames) d
       else d.

(** The rows a [DictReader] yields: the first record gives the field
    names, blank records are passed over. *)
Definition dict_reader (records : list (list string)) : list dict :=
  match records with
  | [] => []
  | fieldnames :: rest =>
      map (dict_row fieldnames)
          (filter (fun r => match r with [] => false | _ => true end) rest)
  end.

(** [int(v)] on a row value. *)
Definition int_of_value (v : value) : res Z :=
  match v with
  | VStr s => match int_limited s with Some z => Ok z | None => Raise ValueError end
  | VNone | VList _ => Raise TypeError
  end.

(** The loop of [get_ids_from_csv] over the rows; [ids] is the list built
    so far.  A [ValueError] of [int] is passed over, anything else leaves
    the loop. *)
Fixpoint collect_ids (rows : list dict) (ids : list Z) : res (list Z) :=
  match rows with
  | [] => Ok ids
  | row :: rows' =>
      if dict_mem row (Some "Activation ID") then
        match dict_get row (Some "Activation ID") with
        | Some v =>
            match int_of_value v with
            | Ok z => collect_ids rows' (ids ++ [z])
            | Raise ValueError => collect_ids rows' ids
            | Raise e => Raise e
            end
        | None => collect_ids rows' ids
        end
      else collect_ids rows' ids
  end.

(** The [except FileNotFoundError] clause covers the whole [with] block:
    whatever raises that error, the list built so far is dropped and the
    empty list returned. *)
Definition get_ids_from_csv (f : input_file) : res (list Z) :=
  match f with
  | OpenError FileNotFoundError => Ok []
  | OpenError e => Raise e
  | Contents records => collect_ids (dict_reader records) []
  | ReadError records e =>
      match collect_ids (dict_reader records) [] with
      | Raise e' => Raise e'
      | Ok _ =>
          match e with
          | FileNotFoundError => Ok []
          | _ => Raise e
          end
      end
  end.

End Csv.

(** ** The parsed page: [BeautifulSoup] with [html.parser] *)

Module Soup.
Import Py.

(** A parse tree.  Tag and attribute names are lower case, attribute
    values are kept as written; the multi-valued attributes [class] and
    [rel] are split at white space where the program looks at them, as
    the parser does when it builds the tree.  [link], [img] and [input]
    are void elements: the parser never gives them children. *)
Inductive node : Type :=
  | Tag (name : string) (attrs : list (string * string)) (children : list node)
  | NavigableString (s : string)
  | Doctype (s : string).

(** The contents of a [BeautifulSoup] object. *)
Definition soup := list node.

Definition node_name (n : node) : option string :=
  match n with Tag nm _ _ => Some nm | _ => None end.

Definition node_attrs (n : node) : list (string * string) :=
  match n with Tag _ a _ => a | _ => [] end.

Definition node_children (n : node) : list node :=
  match n with Tag _ _ cs => cs | _ => [] end.

(** [tag.get(k)] *)
Fixpoint attr_get (attrs : list (string * string)) (k : string) : option string :=
  match attrs with
  | [] => None
  | (k', v) :: rest => if String.eqb k' k then Some v else attr_get rest k
  end.

(** [tag[k] = v] *)
Fixpoint attr_set (attrs : list (string * string)) (k v : string)
  : list (string * string) :=
  match attrs with
  | [] => [(k, v)]
  | (k', v') :: rest =>
      if String.eqb k' k then (k', v) :: rest else (k', v') :: attr_set rest k v
  end.

(** A node and everything below it, in document order. *)
Fixpoint self_and_descendants (n : node) : list node :=
  match n with
  | Tag _ _ cs => n :: flat_map self_and_descendants cs
  | _ => [n]
  end.

Definition descendants (cs : list node) : list node :=
  flat_map self_and_descendants cs.

Definition is_tag (nm : string) (n : node) : bool :=
  match n with Tag nm' _ _ => String.eqb nm' nm | _ => false end.

(** A single-valued attribute equal to [v]. *)
Definition attr_is (k v : string) (n : node) : bool :=
  match attr_get (node_attrs n) k with
  | Some v' => String.eqb v' v
  | None => false
  end.

(** A multi-valued attribute one of whose values is [v]. *)
Definition attr_has (k v : string) (n : node) : bool :=
  match attr_get (node_attrs n) k with
  | Some v' => existsb (String.eqb v) (split_ws v')
  | None => false
  end.

(** [k=True]: the attribute is there. *)
Definition attr_present (k : string) (n : node) : bool :=
  match attr_get (node_attrs n) k with Some _ => true | None => false end.

(** [x.find_all(...)] and [x.find(...)] for [x] with contents [cs]. *)
Definition find_all (p : node -> bool) (cs : list node) : list node :=
  filter p (descendants cs).

Definition find (p : node -> bool) (cs : list node) : option node :=
  hd_error (find_all p cs).

(** [soup.find('div', attrs={'data-controller': 'copytoclipboard'})] *)
Definition is_clipboard_div (n : node) : bool :=
  is_tag "div" n && attr_is "data-controller" "copytoclipboard" n.

(** [soup.find('div', class_='instruction-card')] *)
Definition is_instruction_card (n : node) : bool :=
  is_tag "div" n && attr_has "class" "instruction-card" n.

(** [soup.find_all('link', rel='stylesheet')] *)
Definition is_css_link (n : node) : bool :=
  is_tag "link" n && attr_has "rel" "stylesheet" n.

(** The value read at source lines 104-108: the [value] of the first
    [input] inside the first clipboard container, when it is there and not
    empty. *)
Definition extract_secret_code (page : soup) : option string :=
  match find is_clipboard_div page with
  | Some clipboard_div =>
      match find (is_tag "input") (node_children clipboard_div) with
      | Some input_field =>
          match attr_get (node_attrs input_field) "value" with
          | Some v => if String.eqb v "" then None else Some v
          | None => None
          end
      | None => None
      end
  | None => None
  end.

(** The tree that is left when the nodes satisfying [p] have been moved
    out of it. *)
Fixpoint prune (p : node -> bool) (n : node) : node :=
  match n with
  | Tag nm a cs =>
      Tag nm a ((fix go (l : list node) : list node :=
                   match l with
                   | [] => []
                   | c :: l' => if p c then go l' else prune p c :: go l'
                   end) cs)
  | _ => n
  end.

(** The skeleton of source line 115 after the stylesheet links have been
    appended to its head and the target content to its body.  Appending
    moves a node: the links that stood inside the target are no longer in
    it when it arrives in the body. *)
Definition new_document (css_links : list node) (target_content : node) : soup :=
  [ Doctype "html";
    Tag "html" []
      [ Tag "head" [] css_links;
        Tag "body" [] [prune is_css_link target_content] ] ].

End Soup.

(** ** The world and the worker monad *)

Module Fetch.
Import Py Soup.

(** One call of [process_activation_id]: the number of the round and the
    position of the identifier in that round's list. *)
Definition attempt := (nat * nat)%type.

Record response : Type := mkResponse {
  status_code : Z;
  text : soup;          (* the body as [html.parser] reads it *)
  content : string      (* the raw body *)
}.

(** What becomes of [with open(path, mode) as f: f.write(c)]: the file is
    written; or [open] raises and no file is made; or [open] makes the
    file (empty, whatever was there before) and [f.write] raises, which
    leaves a file that is there but incomplete. *)
Inductive write_result : Type :=
  | Written
  | NotOpened (e : exn)
  | Truncated (e : exn).

(** The environment.  The first three fields answer the effects of one
    worker; the second argument counts the effects that worker has
    performed so far, so the same question can get different answers.
    The last three are the library functions the program only calls. *)
Record World : Type := mkWorld {
  session_get : attempt -> nat -> string -> res response;
  path_exists : attempt -> nat -> string -> bool;
  file_write : attempt -> nat -> string -> write_result;
  completed_at : attempt -> nat;
  urljoin : string -> string -> res string;
  urlparse_path : string -> res string;
  md5_hex8 : string -> string
}.

(** What a file holds: bytes, a document, or the incomplete remains of a
    write that failed. *)
Inductive file_content : Type :=
  | Bytes (b : string)
  | Html (doc : soup)
  | Partial.

(** The dictionary [result] of [process_activation_id]. *)
Record result_dict : Type := mkResult {
  r_id : string;
  r_secret_code : string;
  r_status : Z
}.

(** The state of a worker: the effects done, the files written, and the
    [result] dictionary, which the body and the handler both update. *)
Record tstate : Type := mkT {
  tick : nat;
  written : list (string * file_content);
  result : result_dict
}.

Definition M (A : Type) : Type := tstate -> res A * tstate.

Definition ret {A} (a : A) : M A := fun s => (Ok a, s).

Definition bind {A B} (m : M A) (f : A -> M B) : M B :=
  fun s => match m s with
           | (Ok a, s') => f a s'
           | (Raise e, s') => (Raise e, s')
           end.

Definition raise {A} (e : exn) : M A := fun s => (Raise e, s).

(** [try: m  except Exception: handler] *)
Definition try_except {A} (m : M A) (handler : M A) : M A :=
  fun s => match m s with
           | (Ok a, s') => (Ok a, s')
           | (Raise _, s') => handler s'
           end.

Definition lift {A} (r : res A) : M A := fun s => (r, s).

Declare Scope fetch_scope.
Delimit Scope fetch_scope with fetch.
Notation "x <- m ;; k" := (bind m (fun x => k))
  (at level 61, m at next level, right associativity) : fetch_scope.
Notation "m ;;; k" := (bind m (fun _ => k))
  (at level 61, right associativity) : fetch_scope.
Local Open Scope fetch_scope.

Definition next_tick : M nat :=
  fun s => (Ok (tick s), mkT (S (tick s)) (written s) (result s)).

(** [session.get(url, ...)] *)
Definition get (w : World) (a : attempt) (url : string) : M response :=
  t <- next_tick ;; lift (session_get w a t url).

(** [os.path.exists(path)] *)
Definition exists_ (w : World) (a : attempt) (path : string) : M bool :=
  t <- next_tick ;; ret (path_exists w a t path).

(** [with open(path, mode) as f: f.write(c)] *)
Definition write (w : World) (a : attempt) (path : string) (c : file_content)
  : M unit :=
  t <- next_tick ;;
  match file_write w a t path with
  | Written =>
      fun s => (Ok tt, mkT (tick s) (written s ++ [(path, c)]) (result s))
  | NotOpened e => raise e
  | Truncated e =>
      fun s => (Raise e, mkT (tick s) (written s ++ [(path, Partial)]) (result s))
  end.

Definition set_status (st : Z) : M unit :=
  fun s => (Ok tt, mkT (tick s) (written s)
                       (mkResult (r_id (result s)) (r_secret_code (result s)) st)).

Definition set_secret_code (c : string) : M unit :=
  fun s => (Ok tt, mkT (tick s) (written s)
                       (mkResult (r_id (result s)) c (r_status (result s)))).

Definition get_result : M result_dict := fun s => (Ok (result s), s).

(** *** Configuration *)

Definition HTML_DIR : string := "html_responses".
Definition ASSETS_DIR : string := path_join HTML_DIR "assets".
Definition OUTPUT_HEADER : list string :=
  ["Activation ID"; "Secret Code"; "Status Code"].

(** *** [download_asset] *)

(** The name under which an asset is kept, source lines 52-63; [path] is
    [urlparse(url).path]. *)
Definition save_name_of (w : World) (url path : string) : string :=
  let filename := basename path in
  let filename := if String.eqb filename "" then "index.html" else filename in
  let url_hash := md5_hex8 w url in
  let '(name, ext) := splitext filename in
  let ext := if contains_char "?" ext then before_char "?" ext else ext in
  name ++ "_" ++ url_hash ++ ext.

(** The body of the [try] block, source lines 51-73. *)
Definition download_asset_body (w : World) (a : attempt) (url : string)
  : M string :=
  path <- lift (urlparse_path w url) ;;
  let save_name := save_name_of w url path in
  let save_path := path_join ASSETS_DIR save_name in
  there <- exists_ w a save_path ;;
  (if negb there then
     resp <- get w a url ;;
     if status_code resp =? 200
     then write w a save_path (Bytes (content resp))
     else ret tt
   else ret tt) ;;;
  ret ("assets/" ++ save_name).

Definition download_asset (w : World) (a : attempt) (url : string) : M string :=
  try_except (download_asset_body w a url) (ret url).

(** *** Rewriting the references of the new document *)

(** Visit the tags of a tree in document order and let [f] update the
    attributes of each. *)
Fixpoint for_each_tag
    (f : string -> list (string * string) -> M (list (string * string)))
    (n : node) : M node :=
  match n with
  | Tag nm attrs cs =>
      attrs' <- f nm attrs ;;
      cs' <- (fix go (l : list node) : M (list node) :=
                match l with
                | [] => ret []
                | c :: l' =>
                    c' <- for_each_tag f c ;;
                    r <- go l' ;;
                    ret (c' :: r)
                end) cs ;;
      ret (Tag nm attrs' cs')
  | _ => ret n
  end.

Fixpoint for_each_tag_in
    (f : string -> list (string * string) -> M (list (string * string)))
    (doc : soup) : M soup :=
  match doc with
  | [] => ret []
  | n :: doc' =>
      n' <- for_each_tag f n ;;
      r <- for_each_tag_in f doc' ;;
      ret (n' :: r)
  end.

(** [tag.get('rel') == ['stylesheet']] *)
Definition rel_is_stylesheet (attrs : list (string * string)) : bool :=
  match attr_get attrs "rel" with
  | Some v =>
      match split_ws v with
      | [x] => String.eqb x "stylesheet"
      | _ => false
      end
  | None => false
  end.

(** Source lines 126-130. *)
Definition localize_link (w : World) (a : attempt) (url : string)
    (nm : string) (attrs : list (string * string)) : M (list (string * string)) :=
  if String.eqb nm "link" then
    match attr_get attrs "href" with
    | Some href =>
        if rel_is_stylesheet attrs then
          abs_url <- lift (urljoin w url href) ;;
          local_path <- download_asset w a abs_url ;;
          ret (attr_set attrs "href" local_path)
        else ret attrs
    | None => ret attrs
    end
  else ret attrs.

(** Source lines 132-135. *)
Definition localize_img (w : World) (a : attempt) (url : string)
    (nm : string) (attrs : list (string * string)) : M (list (string * string)) :=
  if String.eqb nm "img" then
    match attr_get attrs "src" with
    | Some src =>
        abs_url <- lift (urljoin w url src) ;;
        local_path <- download_asset w a abs_url ;;
        ret (attr_set attrs "src" local_path)
    | None => ret attrs
    end
  else ret attrs.

(** Source lines 137-138. *)
Definition absolutize_anchor (w : World) (url : string)
    (nm : string) (attrs : list (string * string)) : M (list (string * string)) :=
  if String.eqb nm "a" then
    match attr_get attrs "href" with
    | Some href =>
        abs_url <- lift (urljoin w url href) ;;
        ret (attr_set attrs "href" abs_url)
    | None => ret attrs
    end
  else ret attrs.

(** *** [process_activation_id] *)

Definition activation_url (activation_id : string) : string :=
  "https://www.joinsecret.com/activation/" ++ activation_id.

(** Source lines 110-143: cut the instruction card out of the page,
    localize its assets and save it. *)
Definition save_instruction_card (w : World) (a : attempt)
    (activation_id url : string) (original_soup : soup) : M unit :=
  match find is_instruction_card original_soup with
  | Some target_content =>
      let css_links := find_all is_css_link original_soup in
      let new_soup := new_document css_links target_content in
      new_soup <- for_each_tag_in (localize_link w a url) new_soup ;;
      new_soup <- for_each_tag_in (localize_img w a url) new_soup ;;
      new_soup <- for_each_tag_in (absolutize_anchor w url) new_soup ;;
      write w a (path_join HTML_DIR (activation_id ++ ".html")) (Html new_soup)
  | None => ret tt
  end.

(** The body of the [try] block, source lines 97-143. *)
Definition fetch_body (w : World) (a : attempt) (activation_id url : string)
  : M unit :=
  response <- get w a url ;;
  set_status (status_code response) ;;;
  if status_code response =? 200
  then
    let original_soup := text response in
    match extract_secret_code original_soup with
    | Some v => set_secret_code v
    | None => ret tt
    end ;;;
    save_instruction_card w a activation_id url original_soup
  else ret tt.

(** The handler, source lines 145-147. *)
Definition fetch_handler : M unit :=
  set_status 0 ;;; set_secret_code "Error".

Definition initial_tstate (activation_id : string) : tstate :=
  mkT 0 [] (mkResult activation_id "Not Found" 0).

Definition process_activation_id (w : World) (a : attempt) (activation_id_int : Z)
  : res result_dict * tstate :=
  let activation_id := format06 activation_id_int in
  let url := activation_url activation_id in
  (try_except (fetch_body w a activation_id url) fetch_handler ;;;
   get_result) (initial_tstate activation_id).

(** What the caller gets for identifier [i] on attempt [a]: the [result]
    dictionary as the worker leaves it. *)
Definition outcome_of (w : World) (a : attempt) (i : Z) : result_dict :=
  result (snd (process_activation_id w a i)).

(** The payload the body stores for a page. *)
Definition payload_of (page : soup) : string :=
  match extract_secret_code page with
  | Some v => v
  | None => "Not Found"
  end.

(** The [try] block of [process_activation_id] was left by an exception. *)
Definition fetch_raises (w : World) (a : attempt) (i : Z) : bool :=
  match fst (fetch_body w a (format06 i) (activation_url (format06 i))
                        (initial_tstate (format06 i))) with
  | Raise _ => true
  | Ok _ => false
  end.

(** A computation that leaves the [result] dictionary alone. *)
Definition frames {A} (m : M A) : Prop :=
  forall s, result (snd (m s)) = result s.

End Fetch.

(** ** The scheduler, the retry loop and [main] *)

Module Main.
Import Py Csv Soup Fetch.

(** A cell handed to [csv.writer.writerow]. *)
Inductive cell : Type :=
  | CStr (s : string)
  | CInt (z : Z).

Definition row := list cell.

Definition header_row : row := map CStr OUTPUT_HEADER.

(** The files the program reads and writes.  [output_csv] is [None] while
    [secret_codes_summary.csv] does not exist; [html_dir] lists the files
    under [html_responses]; [zip_file] is the archive once it is made. *)
Record FS : Type := mkFS {
  input_csv : input_file;
  output_csv : option (list row);
  html_dir : list (string * file_content);
  zip_file : option (list string)
}.

(** A finished future: its position in the round, what the call returned
    and the worker's final state. *)
Record future : Type := mkFuture {
  slot : nat;
  outcome : res result_dict;
  worker : tstate
}.

(** [executor.submit(process_activation_id, i)] for the [k]-th identifier
    of round [iteration]. *)
Definition submit (w : World) (iteration k : nat) (i : Z) : future :=
  let '(r, s) := process_activation_id w (iteration, k) i in
  mkFuture k r s.

Fixpoint submit_all (w : World) (iteration k : nat) (ids : list Z) : list future :=
  match ids with
  | [] => []
  | i :: ids' => submit w iteration k i :: submit_all w iteration (S k) ids'
  end.

(** [as_completed]: the futures in the order in which the workers finish,
    those finishing together in the order of submission. *)
Fixpoint insert_completed (t : future -> nat) (f : future) (l : list future)
  : list future :=
  match l with
  | [] => [f]
  | g :: l' => if Nat.leb (t f) (t g) then f :: g :: l'
               else g :: insert_completed t f l'
  end.

Fixpoint as_completed (t : future -> nat) (l : list future) : list future :=
  match l with
  | [] => []
  | f :: l' => insert_completed t f (as_completed t l')
  end.

(** The test of source line 238. *)
Definition is_settled (status : Z) : bool :=
  (status =? 200) || (status =? 404).

(** What the loop of source lines 233-249 has built. *)
Record collected : Type := mkCollected {
  f_out : list row;         (* rows written to the output file *)
  retry_ids : list Z;
  raised : option exn       (* the exception that left the loop, if any *)
}.

Fixpoint collect (futures : list future) (rows : list row) (retry : list Z)
  : collected :=
  match futures with
  | [] => mkCollected rows retry None
  | f :: futures' =>
      match outcome f with
      | Raise e => mkCollected rows retry (Some e)
      | Ok data =>
          let status := r_status data in
          if is_settled status
          then collect futures'
                 (rows ++ [[CStr (r_id data); CStr (r_secret_code data); CInt status]])
                 retry
          else match int_of_str (r_id data) with
               | Some i => collect futures' rows (retry ++ [i])
               | None => mkCollected rows retry (Some ValueError)
               end
      end
  end.

(** One round: source lines 212-249. *)
Definition completed (w : World) (iteration : nat) (ids : list Z) : list future :=
  as_completed (fun f => completed_at w (iteration, slot f))
               (submit_all w iteration 0 ids).

Definition run_round (w : World) (iteration : nat) (ids : list Z) : collected :=
  collect (completed w iteration ids) [] [].

(** Files saved by the workers of a round. *)
Fixpoint store (files : list (string * file_content)) (path : string)
    (c : file_content) : list (string * file_content) :=
  match files with
  | [] => [(path, c)]
  | (p, c') :: files' =>
      if String.eqb p path then (p, c) :: files' else (p, c') :: store files' path c
  end.

Definition store_all (files written : list (string * file_content))
  : list (string * file_content) :=
  fold_left (fun fs pc => store fs (fst pc) (snd pc)) written files.

Definition round_files (w : World) (iteration : nat) (ids : list Z)
    (files : list (string * file_content)) : list (string * file_content) :=
  fold_left (fun fs f => store_all fs (written (worker f)))
            (completed w iteration ids) files.

(** [open(OUTPUT_CSV, mode='a')] and the rows written through it. *)
Definition append_rows (file : option (list row)) (rows : list row)
  : option (list row) :=
  match file with
  | Some old => Some (old ++ rows)%list
  | None => Some rows
  end.

(** How a run stands: it returned, it was left by an exception, or it is
    still inside the [while] loop when the fuel is used up. *)
Inductive run : Type :=
  | Returned (fs : FS)
  | Raised (e : exn) (fs : FS)
  | Running (fs : FS).

(** The [while] loop, source lines 208-259; [fuel] bounds the number of
    rounds that are run. *)
Fixpoint retry_loop (fuel : nat) (w : World) (iteration : nat)
    (ids_to_process : list Z) (fs : FS) : run :=
  match ids_to_process with
  | [] => Returned fs
  | _ :: _ =>
      match fuel with
      | O => Running fs
      | S fuel' =>
          let c := run_round w iteration ids_to_process in
          let fs' := mkFS (input_csv fs)
                          (append_rows (output_csv fs) (f_out c))
                          (round_files w iteration ids_to_process (html_dir fs))
                          (zip_file fs) in
          match raised c with
          | Some e => Raised e fs'
          | None =>
              match retry_ids c with
              | [] => retry_loop fuel' w iteration [] fs'
              | _ :: _ => retry_loop fuel' w (S iteration) (retry_ids c) fs'
              end
          end
      end
  end.

(** [create_zip_archive]: every file under [HTML_DIR] goes into the
    archive under its path relative to the working directory.  The list
    names the members of the archive; the order in which [os.walk] meets
    them is not described, and neither is a failure to write the
    archive. *)
Definition create_zip_archive (fs : FS) : FS :=
  mkFS (input_csv fs) (output_csv fs) (html_dir fs) (Some (map fst (html_dir fs))).

(** Source lines 195-204.  The output file is taken to be writable: the
    [open] of lines 202 and 215 does not fail here. *)
Definition init_output (fs : FS) : FS :=
  match output_csv fs with
  | Some _ => fs
  | None => mkFS (input_csv fs) (Some [header_row]) (html_dir fs) (zip_file fs)
  end.

Definition main (fuel : nat) (w : World) (fs : FS) : run :=
  match get_ids_from_csv (input_csv fs) with
  | Raise e => Raised e fs
  | Ok ids_to_process =>
      match retry_loop fuel w 1 ids_to_process (init_output fs) with
      | Returned fs' => Returned (create_zip_archive fs')
      | r => r
      end
  end.

(** *** Reading a round and a run *)

(** The row written for a settled outcome, source lines 240-244. *)
Definition row_of (data : result_dict) : row :=
  [CStr (r_id data); CStr (r_secret_code data); CInt (r_status data)].

(** [int(data['id'])], with 0 where [int] would raise. *)
Definition id_of (data : result_dict) : Z :=
  match int_of_str (r_id data) with
  | Some i => i
  | None => 0
  end.

Definition settled (data : result_dict) : bool := is_settled (r_status data).
Definition transient (data : result_dict) : bool := negb (settled data).

(** The outcomes of a round in the order in which they complete. *)
Definition round_outcomes (w : World) (iteration : nat) (ids : list Z)
  : list result_dict :=
  map (fun f => result (worker f)) (completed w iteration ids).

(** How many outcomes of a list have a given status. *)
Definition count_status (st : Z) (l : list result_dict) : nat :=
  List.length (filter (fun d => r_status d =? st) l).

(** A future of the program: it holds the outcome of some attempt on some
    identifier of the round. *)
Definition future_of (w : World) (iteration : nat) (ids : list Z) (f : future)
  : Prop :=
  exists i, In i ids /\
    outcome f = Ok (outcome_of w (iteration, slot f) i) /\
    result (worker f) = outcome_of w (iteration, slot f) i.

(** A record of the run: the row of a settled outcome of some attempt on
    an identifier of the list. *)
Definition record_of (w : World) (ids : list Z) (d : result_dict) : Prop :=
  settled d = true /\ exists a i, In i ids /\ d = outcome_of w a i.

Definition fs_of (r : run) : FS :=
  match r with
  | Returned fs | Raised _ fs | Running fs => fs
  end.

Definition has_returned (r : run) : bool :=
  match r with Returned _ => true | _ => false end.

End Main.

(** ** The statements of the specification *)

Module Spec.
Import Py Csv Soup Fetch Main.
Local Open Scope list_scope.




(** The identifier a row of the output file stands for. *)
Definition row_identifier (r : row) : Z :=
  match r with
  | CStr s :: _ => match int_of_str s with Some i => i | None => 0 end
  | _ => 0
  end.

Definition settled_ids (c : collected) : list Z :=
  map row_identifier (f_out c).

(** The sizes of the two parts of a round: [N + M] rows for [N] outcomes
    with status 200 and [M] with status 404, and one queued identifier for
    each of the [K] other outcomes. *)
Definition round_sizes (w : World) (iteration : nat) (ids : list Z) : Prop :=
  let ds := round_outcomes w iteration ids in
  let c := run_round w iteration ids in
  List.length (f_out c) = (count_status 200 ds + count_status 404 ds)%nat /\
  List.length (retry_ids c) = List.length (filter transient ds).

(** The settled and the queued identifiers are those of the round. *)
Definition round_union (w : World) (iteration : nat) (ids : list Z) : Prop :=
  let c := run_round w iteration ids in
  forall i, In i ids <-> In i (settled_ids c) \/ In i (retry_ids c).

(** No identifier is both settled and queued. *)
Definition round_disjoint (w : World) (iteration : nat) (ids : list Z) : Prop :=
  let c := run_round w iteration ids in
  forall i, In i (settled_ids c) -> ~ In i (retry_ids c).

(** The round property as the specification states it, for every round. *)
Definition round_partition_claim (w : World) (iteration : nat) (ids : list Z)
  : Prop :=
  round_sizes w iteration ids /\
  round_union w iteration ids /\
  round_disjoint w iteration ids.

(** Some clipboard container of the page holds an input with a value. *)
Definition has_extraction_target (page : soup) : bool :=
  existsb
    (fun clipboard_div =>
       existsb
         (fun input_field =>
            match attr_get (node_attrs input_field) "value" with
            | Some v => negb (String.eqb v "")
            | None => false
            end)
         (find_all (is_tag "input") (node_children clipboard_div)))
    (find_all is_clipboard_div page).

(** The boundary case as the specification states it: a page that loads
    with status 200 and has no extraction target gives status 200 and the
    sentinel payload. *)
Definition sentinel_claim (w : World) (a : attempt) (i : Z) : Prop :=
  forall response,
    session_get w a 0 (activation_url (format06 i)) = Ok response ->
    status_code response = 200 ->
    has_extraction_target (text response) = false ->
    r_status (outcome_of w a i) = 200 /\
    r_secret_code (outcome_of w a i) = "Not Found".

(** A character below 128 that no integer literal holds: not a digit, a
    sign or an underscore, and not one of the blanks [int] skips. *)
Definition never_in_a_literal (c : ascii) : bool :=
  let n := nat_of_ascii c in
  Nat.ltb n 128 && negb (is_digit c) && negb (is_int_space c)
  && negb (Ascii.eqb c "-") && negb (Ascii.eqb c "+") && negb (Ascii.eqb c "_").

(** Text that every [int] refuses with [ValueError]: nothing but blanks,
    or some character that no literal holds. *)
Definition not_a_literal (s : string) : Prop :=
  strip s = EmptyString \/
  exists c, In c (list_ascii_of_string s) /\ never_in_a_literal c = true.



(** An input file that cannot be opened stops the program before anything
    is run or written. *)
Definition unreadable_input_claim (w : World) (fuel : nat) (fs : FS) : Prop :=
  forall e, input_csv fs = OpenError e -> main fuel w fs = Raised e fs.

(** No row of the output file has the payload ["Error"]. *)
Definition no_error_payload_claim (w : World) (fuel : nat) (fs : FS) : Prop :=
  forall out activation_id status,
    output_csv (fs_of (main fuel w fs)) = Some out ->
    ~ In [CStr activation_id; CStr "Error"; CInt status] out.

End Spec.

(** ** Worlds to run the program in *)

Module Scenarios.
Import Py Csv Soup Fetch Main.

Definition site : string := "https://www.joinsecret.com".

(** A page with the code in its clipboard container and an instruction
    card that refers to a stylesheet, an image and another page. *)
Definition page_with (code : string) : soup :=
  [Tag "html" []
     [Tag "body" []
        [Tag "div" [("data-controller", "copytoclipboard")]
           [Tag "input" [("value", code)] []];
         Tag "div" [("class", "card instruction-card")]
           [Tag "link" [("rel", "stylesheet"); ("href", "/css/app.css")] [];
            Tag "img" [("src", "/img/logo.png")] [];
            Tag "a" [("href", "/deals")] [NavigableString "All deals"]]]]].

(** The same page without the clipboard container. *)
Definition page_without_code : soup :=
  [Tag "html" []
     [Tag "body" []
        [Tag "div" [("class", "instruction-card")]
           [Tag "img" [("src", "/img/logo.png")] []]]]].

(** [urljoin] and [urlparse] on the references of these pages. *)
Definition join_site (base ref : string) : res string :=
  match ref with
  | String "/" _ => Ok (site ++ ref)
  | _ => Ok ref
  end.

Definition path_of (url : string) : res string :=
  Ok (before_char "?" (substring (String.length site) (String.length url) url)).

Definition is_activation (url : string) : bool :=
  String.prefix (site ++ "/activation/") url.

Definition on_time (a : attempt) : nat := snd a.

(** The run of section 8: identifier 1 has the code ABC123, identifier 2
    is absent, identifier 3 is rate limited in the first round and has the
    code ZZZ999 in the second; every asset is served. *)
Definition w_e2e : World :=
  mkWorld
    (fun a _ url =>
       if String.eqb url (activation_url "000001")
       then Ok (mkResponse 200 (page_with "ABC123") "")
       else if String.eqb url (activation_url "000002")
       then Ok (mkResponse 404 [] "")
       else if String.eqb url (activation_url "000003")
       then if Nat.eqb (fst a) 1
            then Ok (mkResponse 429 [] "")
            else Ok (mkResponse 200 (page_with "ZZZ999") "")
       else if is_activation url then Ok (mkResponse 404 [] "")
       else Ok (mkResponse 200 [] "asset"))
    (fun _ _ _ => false)
    (fun _ _ _ => Written)
    on_time join_site path_of (fun _ => "0a1b2c3d").

(** Every request is rate limited. *)
Definition w_429 : World :=
  mkWorld (fun _ _ _ => Ok (mkResponse 429 [] ""))
          (fun _ _ _ => false) (fun _ _ _ => Written)
          on_time join_site path_of (fun _ => "0a1b2c3d").

(** The network is down. *)
Definition w_down : World :=
  mkWorld (fun _ _ _ => Raise RequestException)
          (fun _ _ _ => false) (fun _ _ _ => Written)
          on_time join_site path_of (fun _ => "0a1b2c3d").

(** The first worker of a round is served, the others are rate limited. *)
Definition w_first_served : World :=
  mkWorld
    (fun a _ url =>
       if Nat.eqb (snd a) 0
       then Ok (mkResponse 200 (page_with "ABC123") "")
       else Ok (mkResponse 429 [] ""))
    (fun _ _ _ => true) (fun _ _ _ => Written)
    on_time join_site path_of (fun _ => "0a1b2c3d").

(** Pages load without a code, assets are served, and no file can be
    written. *)
Definition w_disk_full : World :=
  mkWorld
    (fun a _ url =>
       if is_activation url
       then Ok (mkResponse 200 page_without_code "")
       else Ok (mkResponse 200 [] "asset"))
    (fun _ _ _ => true) (fun _ _ _ => NotOpened OSError)
    on_time join_site path_of (fun _ => "0a1b2c3d").

(** Pages load without a code and everything else works. *)
Definition w_no_code : World :=
  mkWorld
    (fun a _ url =>
       if is_activation url
       then Ok (mkResponse 200 page_without_code "")
       else Ok (mkResponse 200 [] "asset"))
    (fun _ _ _ => false) (fun _ _ _ => Written)
    on_time join_site path_of (fun _ => "0a1b2c3d").

(** Pages load, the asset server answers 404 to every asset. *)
Definition w_asset_404 : World :=
  mkWorld
    (fun a _ url =>
       if is_activation url
       then Ok (mkResponse 200 (page_with "ABC123") "")
       else Ok (mkResponse 404 [] "not here"))
    (fun _ _ _ => false) (fun _ _ _ => Written)
    on_time join_site path_of (fun _ => "0a1b2c3d").

(** The asset server cannot be reached. *)
Definition w_asset_down : World :=
  mkWorld
    (fun a _ url =>
       if is_activation url
       then Ok (mkResponse 200 (page_with "ABC123") "")
       else Raise RequestException)
    (fun _ _ _ => false) (fun _ _ _ => Written)
    on_time join_site path_of (fun _ => "0a1b2c3d").

(** The code shown on every page is the word Error. *)
Definition w_code_is_error : World :=
  mkWorld (fun _ _ _ => Ok (mkResponse 200 (page_with "Error") ""))
          (fun _ _ _ => true) (fun _ _ _ => Written)
          on_time join_site path_of (fun _ => "0a1b2c3d").

(** A file system with the given input records and nothing else. *)
Definition fs_with (records : list (list string)) : FS :=
  mkFS (Contents records) None [] None.

Definition fs_123 : FS :=
  fs_with [["Activation ID"; "Status Code"];
           ["1"; "0"]; ["2"; "0"]; []; ["n/a"; "0"]; ["3"; "0"]].

Definition fs_7 : FS := fs_with [["Activation ID"]; ["7"]].

Definition fs_5_5 : FS := fs_with [["Activation ID"]; ["5"]; ["5"]].

(** No input file. *)
Definition fs_missing : FS := mkFS (OpenError FileNotFoundError) None [] None.

(** An input file that may not be read. *)
Definition fs_forbidden : FS := mkFS (OpenError PermissionError) None [] None.

Definition logo_url : string := site ++ "/img/logo.png".

End Scenarios.

(** ** Reading a document *)

Module Doc.
Import Py Soup.

(** The [href] of a node that [find_all('a', href=True)] selects. *)
Definition anchor_href (n : node) : list string :=
  match n with
  | Tag nm attrs _ =>
      if String.eqb nm "a"
      then match attr_get attrs "href" with
           | Some h => [h]
           | None => []
           end
      else []
  | _ => []
  end.

(** The link targets of a document, in document order. *)
Definition anchor_hrefs (doc : soup) : list string :=
  flat_map anchor_href (descendants doc).

End Doc.

(** ** Reading what a worker wrote *)

Module Writes.
Import Py Soup Fetch.

(** A file of the assets directory as [download_asset] leaves it: at the
    save name of some URL, holding bytes or the remains of a failed
    write. *)
Definition asset_entry (w : World) (pc : string * file_content) : Prop :=
  exists url path,
    urlparse_path w url = Ok path /\
    fst pc = path_join ASSETS_DIR (save_name_of w url path) /\
    (snd pc = Partial \/ exists b, snd pc = Bytes b).

(** A computation that only adds asset files to what was written. *)
Definition appends_assets (w : World) {A} (m : M A) : Prop :=
  forall s, exists l,
    written (snd (m s)) = (written s ++ l)%list /\ Forall (asset_entry w) l.

End Writes.

(** ** Reading a round *)

Module Rounds.
Import Py Fetch Main.

(** The attempts of round [n] on the identifiers [ids0], in the slots a
    list of that length has, all settle. *)
Definition settles_all (w : World) (n : nat) (ids0 : list Z) : Prop :=
  forall k i,
    In i ids0 -> (k < List.length ids0)%nat ->
    is_settled (r_status (outcome_of w (n, k) i)) = true.

End Rounds.

(** ** One more world *)

Module BadLink.
Import Py Soup Fetch Scenarios.

(** A page whose instruction card links to a target that [urljoin]
    refuses (an IPv6 host without its closing bracket). *)
Definition bad_target : string := "http://[".

Definition card_with_bad_link : node :=
  Tag "div" [("class", "instruction-card")]
    [Tag "a" [("href", bad_target)] [NavigableString "Redeem"]].

Definition page_with_bad_link : soup :=
  [Tag "html" []
     [Tag "body" []
        [Tag "div" [("data-controller", "copytoclipboard")]
           [Tag "input" [("value", "ABC123")] []];
         card_with_bad_link]]].

Definition join_strict (base ref : string) : res string :=
  if String.eqb ref bad_target then Raise ValueError else join_site base ref.

Definition w_bad_link : World :=
  mkWorld (fun _ _ _ => Ok (mkResponse 200 page_with_bad_link ""))
          (fun _ _ _ => false) (fun _ _ _ => Written)
          on_time join_strict path_of (fun _ => "0a1b2c3d").

End BadLink.

(** * Properties *)

(** ** [int(f"{i:06}") = i] *)

Module PyFacts.
Import Py.

Lemma append_empty_r (s : string) : s ++ "" = s.
Proof. induction s; cbn; [reflexivity | now rewrite IHs]. Qed.

Lemma int_digits_uint (d : Decimal.uint) (rest : string) (acc : Z) (prev : bool) :
  int_digits (NilEmpty.string_of_uint d ++ rest) acc prev =
  int_digits rest (uint_val d acc)
             (match d with Decimal.Nil => prev | _ => true end).
Proof.
  revert acc prev.
  induction d; intros acc prev; cbn [NilEmpty.string_of_uint append];
    try reflexivity;
    cbn [int_digits]; change (is_digit _) with true; cbv iota;
    rewrite IHd; cbn [uint_val];
    match goal with
    | |- context [digit_val ?c] =>
        let v := eval vm_compute in (digit_val c) in
        change (digit_val c) with v
    end;
    rewrite ?Z.add_0_r; destruct d; reflexivity.
Qed.

Lemma uint_val_acc (d : Decimal.uint) (acc : positive) :
  uint_val d (Z.pos acc) = Z.pos (Pos.of_uint_acc d acc).
Proof.
  revert acc.
  induction d; intro acc; cbn [uint_val Pos.of_uint_acc]; try reflexivity;
    match goal with
    | |- uint_val _ ?z = Z.pos (Pos.of_uint_acc _ ?p) =>
        replace z with (Z.pos p) by lia; apply IHd
    end.
Qed.

Lemma uint_val_of_uint (d : Decimal.uint) :
  uint_val d 0 = Z.of_N (N.of_uint d).
Proof.
  unfold N.of_uint.
  induction d; cbn [uint_val Pos.of_uint]; try reflexivity;
    try (change (10 * 0) with 0; exact IHd);
    match goal with
    | |- uint_val _ ?z = _ =>
        let p := eval cbv in (Z.to_pos z) in
        change z with (Z.pos p); rewrite uint_val_acc; reflexivity
    end.
Qed.

Lemma uint_val_to_uint (n : N) : uint_val (N.to_uint n) 0 = Z.of_N n.
Proof. now rewrite uint_val_of_uint, DecimalN.Unsigned.of_to. Qed.

Lemma to_uint_not_nil (n : N) : N.to_uint n <> Decimal.Nil.
Proof.
  destruct n; cbn; [discriminate | apply DecimalPos.Unsigned.to_uint_nonnil].
Qed.

Lemma int_digits_str_N (n : N) (acc : Z) (prev : bool) :
  int_digits (str_N n) acc prev = Some (uint_val (N.to_uint n) acc).
Proof.
  unfold str_N.
  rewrite <- (append_empty_r (NilEmpty.string_of_uint (N.to_uint n))) at 1.
  rewrite int_digits_uint.
  pose proof (to_uint_not_nil n).
  destruct (N.to_uint n); [congruence | reflexivity ..].
Qed.

Lemma int_digits_zeros (k : nat) (s : string) (prev : bool) :
  int_digits (zeros k ++ s) 0 prev =
  int_digits s 0 (match k with O => prev | S _ => true end).
Proof.
  revert prev; induction k; intro prev; [reflexivity |].
  cbn [zeros append int_digits]. change (is_digit "0") with true. cbv iota.
  change (10 * 0 + digit_val "0") with 0.
  rewrite IHk. destruct k; reflexivity.
Qed.

Lemma int_digits_zfill (width : nat) (n : N) :
  int_digits (zfill width (str_N n)) 0 false = Some (Z.of_N n).
Proof.
  unfold zfill. rewrite int_digits_zeros, int_digits_str_N.
  now rewrite uint_val_to_uint.
Qed.

Lemma no_space_app (a b : string) :
  no_space (a ++ b) = no_space a && no_space b.
Proof.
  unfold no_space. induction a as [|c a IH]; cbn; [reflexivity |].
  now rewrite IH, andb_assoc.
Qed.

Lemma no_space_zeros (k : nat) : no_space (zeros k) = true.
Proof. induction k; [reflexivity | exact IHk]. Qed.

Lemma no_space_uint (d : Decimal.uint) :
  no_space (NilEmpty.string_of_uint d) = true.
Proof. induction d; [reflexivity | exact IHd ..]. Qed.

Lemma no_space_format06 (z : Z) : no_space (format06 z) = true.
Proof.
  unfold format06, zfill, str_N.
  destruct (z <? 0);
    [change (no_space (String ?c ?s)) with (no_space s) |];
    now rewrite no_space_app, no_space_zeros, no_space_uint.
Qed.

Lemma strip_no_space (s : string) : no_space s = true -> strip s = s.
Proof.
  unfold strip, no_space. intro H.
  assert (L : lstrip s = s).
  { destruct s as [|c s]; [reflexivity |].
    cbn in H. apply andb_true_iff in H as [Hc _].
    cbn. now destruct (is_int_space c). }
  rewrite L. clear L.
  induction s as [|c s IH]; [reflexivity |].
  cbn in H. apply andb_true_iff in H as [Hc Hs].
  cbn [rstrip]. rewrite (IH Hs).
  destruct s; [| reflexivity].
  now destruct (is_int_space c).
Qed.

(** A literal without sign and white space is read by its digits. *)
Lemma int_of_str_unsigned (s : string) (v : Z) :
  no_space s = true -> int_digits s 0 false = Some v -> int_of_str s = Some v.
Proof.
  intros Hs Hd. unfold int_of_str. rewrite (strip_no_space s Hs).
  destruct s as [|c d]; [discriminate |].
  destruct (Ascii.eqb_spec c "-") as [-> | _]; [discriminate |].
  destruct (Ascii.eqb_spec c "+") as [-> | _]; [discriminate |].
  exact Hd.
Qed.

(** The identifier that is rendered into the URL is read back unchanged by
    [int]: source lines 84 and 247. *)
Lemma int_of_str_format06 (z : Z) : int_of_str (format06 z) = Some z.
Proof.
  pose proof (no_space_format06 z) as Hs.
  unfold format06 in *.
  destruct (Z.ltb_spec z 0) as [Hneg | Hpos].
  - unfold int_of_str. rewrite (strip_no_space _ Hs).
    change (Ascii.eqb "-" "-") with true. cbv iota.
    rewrite int_digits_zfill. cbn [option_map]. f_equal. lia.
  - apply int_of_str_unsigned; [exact Hs |].
    rewrite int_digits_zfill. f_equal. lia.
Qed.

Lemma format06_inj (x y : Z) : format06 x = format06 y -> x = y.
Proof.
  intro H. apply (f_equal int_of_str) in H.
  rewrite !int_of_str_format06 in H. congruence.
Qed.

End PyFacts.

(** ** The primitives at work *)

Example format06_pos : Py.format06 42 = "000042".
Proof. reflexivity. Qed.
Example format06_neg : Py.format06 (-5) = "-00005".
Proof. reflexivity. Qed.
Example format06_big : Py.format06 1234567 = "1234567".
Proof. reflexivity. Qed.
Example int_of_str_ex : Py.int_of_str " -00_12 " = Some (-12).
Proof. reflexivity. Qed.
Example int_of_str_bad : Py.int_of_str "12a" = None.
Proof. reflexivity. Qed.
Example splitext_ex : Py.splitext "a.tar.gz" = ("a.tar", ".gz").
Proof. reflexivity. Qed.
Example splitext_dot : Py.splitext ".bashrc" = (".bashrc", "").
Proof. reflexivity. Qed.
Example basename_ex : Py.basename "/static/css/app.css" = "app.css".
Proof. reflexivity. Qed.
Example split_ws_ex : Py.split_ws " a  bc d " = ["a"; "bc"; "d"].
Proof. reflexivity. Qed.
Example int_of_str_underscore : Py.int_of_str "1__2" = None.
Proof. reflexivity. Qed.
Example get_ids_skips_bad_rows :
  Csv.get_ids_from_csv (Main.input_csv Scenarios.fs_123) = Py.Ok [1; 2; 3].
Proof. reflexivity. Qed.

(** The run of section 8 of the specification: identifier 3 is settled in
    the second round. *)
Example end_to_end_first_round :
  Main.output_csv (Main.fs_of (Main.main 1 Scenarios.w_e2e Scenarios.fs_123)) =
  Some [Main.header_row;
        [Main.CStr "000001"; Main.CStr "ABC123"; Main.CInt 200];
        [Main.CStr "000002"; Main.CStr "Not Found"; Main.CInt 404]].
Proof. reflexivity. Qed.

Example end_to_end :
  Main.output_csv (Main.fs_of (Main.main 2 Scenarios.w_e2e Scenarios.fs_123)) =
  Some [Main.header_row;
        [Main.CStr "000001"; Main.CStr "ABC123"; Main.CInt 200];
        [Main.CStr "000002"; Main.CStr "Not Found"; Main.CInt 404];
        [Main.CStr "000003"; Main.CStr "ZZZ999"; Main.CInt 200]]
  /\ Main.has_returned (Main.main 2 Scenarios.w_e2e Scenarios.fs_123) = true.
Proof. split; reflexivity. Qed.

(** ** The worker *)

Module FetchFacts.
Import Py Soup Fetch.
Local Open Scope fetch_scope.

(** Induction on parse trees, with the hypothesis for every child. *)
Lemma node_forall_ind (P : node -> Prop) :
  (forall nm attrs cs, Forall P cs -> P (Tag nm attrs cs)) ->
  (forall s, P (NavigableString s)) ->
  (forall s, P (Doctype s)) ->
  forall n, P n.
Proof.
  intros HT HS HD.
  fix IH 1. intros [nm attrs cs | s | s]; [| apply HS | apply HD].
  apply HT. induction cs as [|c cs IHcs]; constructor; [apply IH | exact IHcs].
Qed.

Create HintDb frames.

Lemma frames_ret {A} (a : A) : frames (ret a).
Proof. now intro. Qed.

Lemma frames_raise {A} (e : exn) : frames (@raise A e).
Proof. now intro. Qed.

Lemma frames_lift {A} (r : res A) : frames (lift r).
Proof. now intro. Qed.

Lemma frames_bind {A B} (m : M A) (f : A -> M B) :
  frames m -> (forall a, frames (f a)) -> frames (bind m f).
Proof.
  intros Hm Hf s. unfold bind. specialize (Hm s).
  destruct (m s) as [[a | e] s']; cbn in *; [| exact Hm].
  now rewrite Hf.
Qed.

Lemma frames_try_except {A} (m h : M A) :
  frames m -> frames h -> frames (try_except m h).
Proof.
  intros Hm Hh s. unfold try_except. specialize (Hm s).
  destruct (m s) as [[a | e] s']; cbn in *; [exact Hm |].
  now rewrite Hh.
Qed.

Lemma frames_next_tick : frames next_tick.
Proof. now intro. Qed.

#[local] Hint Resolve frames_ret frames_raise frames_lift frames_bind
  frames_try_except frames_next_tick : frames.

Lemma frames_get w a url : frames (get w a url).
Proof. unfold get. auto with frames. Qed.

Lemma frames_exists w a path : frames (exists_ w a path).
Proof. unfold exists_. auto with frames. Qed.

Lemma frames_write w a path c : frames (write w a path c).
Proof.
  unfold write. apply frames_bind; [auto with frames |].
  intro t. destruct (file_write w a t path);
    [now intro | auto with frames | now intro].
Qed.

#[local] Hint Resolve frames_get frames_exists frames_write : frames.

Lemma frames_download_asset w a url : frames (download_asset w a url).
Proof.
  unfold download_asset, download_asset_body.
  apply frames_try_except; [| auto with frames].
  apply frames_bind; [auto with frames |]. intro path.
  apply frames_bind; [auto with frames |]. intros [|].
  - cbn [negb]. auto with frames.
  - cbn [negb]. apply frames_bind; [| auto with frames].
    apply frames_bind; [auto with frames |]. intro resp.
    destruct (status_code resp =? 200); auto with frames.
Qed.

#[local] Hint Resolve frames_download_asset : frames.

Lemma frames_for_each_tag f :
  (forall nm attrs, frames (f nm attrs)) ->
  forall n, frames (for_each_tag f n).
Proof.
  intro Hf. induction n as [nm attrs cs IH | s | s] using node_forall_ind;
    cbn [for_each_tag]; [| auto with frames ..].
  apply frames_bind; [apply Hf |]. intro attrs'.
  apply frames_bind; [| auto with frames].
  induction IH as [| c cs Hc _ IHcs]; [auto with frames |].
  apply frames_bind; [exact Hc |]. intro c'.
  apply frames_bind; [exact IHcs | auto with frames].
Qed.

Lemma frames_for_each_tag_in f :
  (forall nm attrs, frames (f nm attrs)) ->
  forall doc, frames (for_each_tag_in f doc).
Proof.
  intros Hf doc. induction doc as [| n doc IH]; cbn [for_each_tag_in];
    [auto with frames |].
  apply frames_bind; [now apply frames_for_each_tag |]. intro n'.
  apply frames_bind; [exact IH | auto with frames].
Qed.

Lemma frames_localize_link w a url nm attrs :
  frames (localize_link w a url nm attrs).
Proof.
  unfold localize_link.
  destruct (String.eqb nm "link"); [| auto with frames].
  destruct (attr_get attrs "href"); [| auto with frames].
  destruct (rel_is_stylesheet attrs); auto 6 with frames.
Qed.

Lemma frames_localize_img w a url nm attrs :
  frames (localize_img w a url nm attrs).
Proof.
  unfold localize_img.
  destruct (String.eqb nm "img"); [| auto with frames].
  destruct (attr_get attrs "src"); auto 6 with frames.
Qed.

Lemma frames_absolutize_anchor w url nm attrs :
  frames (absolutize_anchor w url nm attrs).
Proof.
  unfold absolutize_anchor.
  destruct (String.eqb nm "a"); [| auto with frames].
  destruct (attr_get attrs "href"); auto 6 with frames.
Qed.

(** Cutting out and saving the instruction card never touches [result],
    whether it succeeds or raises. *)
Lemma frames_save_instruction_card w a activation_id url page :
  frames (save_instruction_card w a activation_id url page).
Proof.
  unfold save_instruction_card.
  destruct (find is_instruction_card page); [| auto with frames].
  apply frames_bind;
    [apply frames_for_each_tag_in, frames_localize_link |]. intro d1.
  apply frames_bind;
    [apply frames_for_each_tag_in, frames_localize_img |]. intro d2.
  apply frames_bind;
    [apply frames_for_each_tag_in, frames_absolutize_anchor |]. intro d3.
  auto with frames.
Qed.

(** [process_activation_id] hands the [result] dictionary to its caller. *)
Lemma process_activation_id_returns w a i :
  process_activation_id w a i =
  (Ok (outcome_of w a i), snd (process_activation_id w a i)).
Proof.
  unfold outcome_of, process_activation_id, bind, try_except, fetch_handler,
    get_result, set_status, set_secret_code, bind.
  destruct (fetch_body w a _ _ _) as [[u | e] s]; reflexivity.
Qed.

(** The [try] block, by what the page request answered. *)
Lemma fetch_body_run w a activation_id url :
  fetch_body w a activation_id url (initial_tstate activation_id) =
  match session_get w a 0 url with
  | Raise e => (Raise e, mkT 1 [] (mkResult activation_id "Not Found" 0))
  | Ok response =>
      if status_code response =? 200
      then save_instruction_card w a activation_id url (text response)
             (mkT 1 [] (mkResult activation_id (payload_of (text response)) 200))
      else (Ok tt, mkT 1 [] (mkResult activation_id "Not Found"
                                      (status_code response)))
  end.
Proof.
  unfold fetch_body, get, next_tick, lift, initial_tstate, payload_of.
  unfold bind at 1 2 3. cbn [tick written result].
  destruct (session_get w a 0 url) as [response | e]; [| reflexivity].
  unfold set_status, bind at 1. cbn [tick written result r_id r_secret_code].
  destruct (Z.eqb_spec (status_code response) 200) as [E | NE];
    [| reflexivity].
  rewrite E.
  destruct (extract_secret_code (text response)); reflexivity.
Qed.

(** Every outcome, by what the page request answered. *)
Lemma outcome_of_cases w a i :
  outcome_of w a i =
  match session_get w a 0 (activation_url (format06 i)) with
  | Raise _ => mkResult (format06 i) "Error" 0
  | Ok response =>
      if status_code response =? 200
      then if fetch_raises w a i
           then mkResult (format06 i) "Error" 0
           else mkResult (format06 i) (payload_of (text response)) 200
      else mkResult (format06 i) "Not Found" (status_code response)
  end.
Proof.
  unfold outcome_of, fetch_raises, process_activation_id.
  unfold bind, try_except, fetch_handler, get_result.
  rewrite fetch_body_run.
  destruct (session_get w a 0 _) as [response | e]; [| reflexivity].
  destruct (status_code response =? 200); [| reflexivity].
  match goal with
  | |- context [save_instruction_card ?w ?a ?id ?u ?p ?s] =>
      pose proof (frames_save_instruction_card w a id u p s) as F;
      destruct (save_instruction_card w a id u p s) as [[u' | e'] s']
  end; cbn in F |- *; unfold set_status, set_secret_code, bind; cbn;
    rewrite ?F; reflexivity.
Qed.

End FetchFacts.

(** ** The scheduler *)

Module MainFacts.
Import Py Csv Soup Fetch Main PyFacts FetchFacts.
Local Open Scope list_scope.

Lemma outcome_of_id w a i : r_id (outcome_of w a i) = format06 i.
Proof.
  rewrite outcome_of_cases.
  destruct (session_get w a 0 _) as [response | e]; [| reflexivity].
  destruct (status_code response =? 200); [| reflexivity].
  destruct (fetch_raises w a i); reflexivity.
Qed.

Lemma id_of_outcome w a i : id_of (outcome_of w a i) = i.
Proof. unfold id_of. now rewrite outcome_of_id, int_of_str_format06. Qed.

Lemma submit_eq w iteration k i :
  submit w iteration k i =
  mkFuture k (Ok (outcome_of w (iteration, k) i))
           (snd (process_activation_id w (iteration, k) i)).
Proof.
  unfold submit. rewrite process_activation_id_returns. reflexivity.
Qed.

Lemma submit_all_futures w iteration ids k :
  Forall (future_of w iteration ids) (submit_all w iteration k ids).
Proof.
  revert k. induction ids as [| i ids IH]; intro k; cbn [submit_all];
    constructor.
  - exists i. rewrite submit_eq. cbn. auto.
  - eapply Forall_impl; [| apply IH].
    intros f (j & Hj & Ho & Hr). exists j. cbn. auto.
Qed.

Lemma submit_all_ids w iteration ids k :
  map (fun f => r_id (result (worker f))) (submit_all w iteration k ids) =
  map format06 ids.
Proof.
  revert k. induction ids as [| i ids IH]; intro k; cbn [submit_all map];
    [reflexivity |].
  rewrite IH, submit_eq. cbn [worker]. f_equal. apply outcome_of_id.
Qed.

(** Every identifier of the round has its future. *)
Lemma submit_all_covers w iteration ids k i :
  In i ids ->
  exists k', In (mkFuture k' (Ok (outcome_of w (iteration, k') i))
                          (snd (process_activation_id w (iteration, k') i)))
                (submit_all w iteration k ids).
Proof.
  revert k. induction ids as [| j ids IH]; intros k Hin; [destruct Hin |].
  destruct Hin as [-> | Hin].
  - exists k. left. apply submit_eq.
  - destruct (IH (S k) Hin) as (k' & Hk'). exists k'. right. exact Hk'.
Qed.

Lemma insert_completed_perm t f l :
  Permutation (insert_completed t f l) (f :: l).
Proof.
  induction l as [| g l IH]; cbn [insert_completed]; [reflexivity |].
  destruct (Nat.leb (t f) (t g)); [reflexivity |].
  rewrite IH. apply perm_swap.
Qed.

(** [as_completed] yields every future once. *)
Lemma as_completed_perm t l : Permutation (as_completed t l) l.
Proof.
  induction l as [| f l IH]; cbn [as_completed]; [reflexivity |].
  rewrite insert_completed_perm. now constructor.
Qed.

Lemma completed_perm w iteration ids :
  Permutation (completed w iteration ids) (submit_all w iteration 0 ids).
Proof. apply as_completed_perm. Qed.

Lemma completed_futures w iteration ids :
  Forall (future_of w iteration ids) (completed w iteration ids).
Proof.
  rewrite Forall_forall. intros f Hf.
  pose proof (submit_all_futures w iteration ids 0) as H.
  rewrite Forall_forall in H. apply H.
  eapply Permutation_in; [apply completed_perm | exact Hf].
Qed.

(** The outcomes of a round carry the identifiers of the round. *)
Lemma round_outcomes_ids w iteration ids :
  Permutation (map r_id (round_outcomes w iteration ids)) (map format06 ids).
Proof.
  unfold round_outcomes. rewrite map_map.
  rewrite <- (submit_all_ids w iteration ids 0).
  apply Permutation_map, completed_perm.
Qed.

Lemma round_outcomes_attempts w iteration ids d :
  In d (round_outcomes w iteration ids) ->
  exists k i, In i ids /\ d = outcome_of w (iteration, k) i.
Proof.
  unfold round_outcomes. rewrite in_map_iff. intros (f & <- & Hf).
  pose proof (completed_futures w iteration ids) as H.
  rewrite Forall_forall in H. destruct (H f Hf) as (i & Hi & _ & Hr).
  exists (slot f), i. auto.
Qed.

Lemma round_outcomes_covers w iteration ids i :
  In i ids ->
  exists k, In (outcome_of w (iteration, k) i) (round_outcomes w iteration ids).
Proof.
  intro Hi. destruct (submit_all_covers w iteration ids 0 i Hi) as (k & Hk).
  exists k. unfold round_outcomes.
  apply (Permutation_in _ (Permutation_sym (completed_perm w iteration ids))) in Hk.
  apply (in_map (fun f => result (worker f))) in Hk. exact Hk.
Qed.

Lemma filter_split {A} (p : A -> bool) (l : list A) :
  Permutation (filter p l ++ filter (fun x => negb (p x)) l) l.
Proof.
  induction l as [| x l IH]; cbn [filter]; [reflexivity |].
  destruct (p x); cbn [negb app].
  - now constructor.
  - rewrite <- Permutation_middle. now constructor.
Qed.

(** The loop of source lines 233-249 over the futures of the program:
    nothing is raised, the settled outcomes are written in order, the
    identifiers of the others are queued in order. *)
Lemma collect_spec w iteration ids futures :
  Forall (future_of w iteration ids) futures ->
  forall rows retry,
    collect futures rows retry =
    let ds := map (fun f => result (worker f)) futures in
    mkCollected (rows ++ map row_of (filter settled ds))
                (retry ++ map id_of (filter transient ds)) None.
Proof.
  induction 1 as [| f futures (i & Hi & Ho & Hr) _ IH]; intros rows retry;
    cbn [collect map filter].
  - now rewrite !app_nil_r.
  - rewrite Ho, Hr. set (d := outcome_of w (iteration, slot f) i).
    change (is_settled (r_status d)) with (settled d).
    unfold transient at 1.
    destruct (settled d) eqn:E; cbn [negb].
    + rewrite IH. cbn zeta. cbn [map]. now rewrite <- app_assoc.
    + unfold d at 1. rewrite outcome_of_id, int_of_str_format06, IH.
      cbn zeta. cbn [map]. unfold d at 1.
      rewrite id_of_outcome. now rewrite <- app_assoc.
Qed.

Lemma run_round_spec w iteration ids :
  run_round w iteration ids =
  mkCollected (map row_of (filter settled (round_outcomes w iteration ids)))
              (map id_of (filter transient (round_outcomes w iteration ids)))
              None.
Proof.
  unfold run_round.
  now rewrite (collect_spec w iteration ids _ (completed_futures w iteration ids)).
Qed.

Lemma round_ids_back w iteration ids l :
  incl l (round_outcomes w iteration ids) ->
  map format06 (map id_of l) = map r_id l.
Proof.
  intro H. rewrite map_map. apply map_ext_in. intros d Hd.
  destruct (round_outcomes_attempts w iteration ids d (H d Hd)) as (k & i & _ & ->).
  now rewrite id_of_outcome, outcome_of_id.
Qed.

(** The settled and the queued identifiers of a round are, together, the
    identifiers of the round, each as often as it was submitted. *)
Lemma round_partition w iteration ids :
  let ds := round_outcomes w iteration ids in
  Permutation (map r_id (filter settled ds)
               ++ map format06 (retry_ids (run_round w iteration ids)))
              (map format06 ids).
Proof.
  cbn zeta. rewrite run_round_spec. cbn [retry_ids].
  rewrite (round_ids_back w iteration ids) by apply incl_filter.
  rewrite <- map_app. unfold transient.
  rewrite (filter_split settled), round_outcomes_ids. reflexivity.
Qed.

Lemma retry_ids_incl w iteration ids :
  incl (retry_ids (run_round w iteration ids)) ids.
Proof.
  rewrite run_round_spec. cbn [retry_ids]. intros j Hj.
  apply in_map_iff in Hj as (d & <- & Hd).
  apply filter_In in Hd as [Hd _].
  destruct (round_outcomes_attempts w iteration ids d Hd) as (k & i & Hi & ->).
  now rewrite id_of_outcome.
Qed.

Lemma record_of_incl w ids ids' d :
  incl ids ids' -> record_of w ids d -> record_of w ids' d.
Proof.
  intros H (Hs & a & i & Hi & ->). split; [exact Hs |].
  exists a, i. auto.
Qed.

(** The retry loop after [fuel] rounds at most: no exception has left it;
    the output file is what it was plus the rows of settled outcomes [recs];
    the identifiers of [recs] and the identifiers [rest] still queued are
    those the loop started with; when the loop has returned, none is
    queued. *)
Lemma retry_loop_spec w fuel :
  forall iteration ids fs old,
    output_csv fs = Some old ->
    exists recs rest,
      let r := retry_loop fuel w iteration ids fs in
      (forall e fs', r <> Raised e fs') /\
      output_csv (fs_of r) = Some (old ++ map row_of recs)%list /\
      Forall (record_of w ids) recs /\
      Permutation (map r_id recs ++ map format06 rest) (map format06 ids) /\
      (has_returned r = true -> rest = []) /\
      input_csv (fs_of r) = input_csv fs /\
      zip_file (fs_of r) = zip_file fs.
Proof.
  induction fuel as [| fuel IH]; intros iteration ids fs old Hout.
  - exists [], ids. destruct ids; cbn; rewrite app_nil_r;
      repeat split; auto; try discriminate.
  - destruct ids as [| i0 ids0].
    { exists [], []. cbn. rewrite app_nil_r. repeat split; auto; discriminate. }
    set (ids := i0 :: ids0).
    assert (Hstep :
      exists it',
        retry_loop (S fuel) w iteration ids fs =
        retry_loop fuel w it' (retry_ids (run_round w iteration ids))
          (mkFS (input_csv fs)
                (append_rows (output_csv fs) (f_out (run_round w iteration ids)))
                (round_files w iteration ids (html_dir fs)) (zip_file fs))).
    { cbn [retry_loop ids]. fold ids. rewrite run_round_spec. cbn [raised retry_ids f_out].
      destruct (map id_of _); [exists iteration | exists (S iteration)]; reflexivity. }
    destruct Hstep as (it' & ->).
    set (fs' := mkFS _ _ _ _).
    assert (Hout' : output_csv fs' =
                    Some (old ++ f_out (run_round w iteration ids))%list).
    { unfold fs'. cbn. now rewrite Hout. }
    destruct (IH it' (retry_ids (run_round w iteration ids)) fs' _ Hout')
      as (recs' & rest & Hr & Hcsv & Hrec & Hperm & Hdone & Hin & Hzip).
    cbn zeta in *.
    exists (filter settled (round_outcomes w iteration ids) ++ recs'), rest.
    repeat split.
    + exact Hr.
    + rewrite Hcsv, run_round_spec. cbn [f_out].
      now rewrite map_app, app_assoc.
    + apply Forall_app. split.
      * rewrite Forall_forall. intros d Hd.
        apply filter_In in Hd as [Hd Hs]. split; [exact Hs |].
        destruct (round_outcomes_attempts w iteration ids d Hd) as (k & i & Hi & ->).
        exists (iteration, k), i. auto.
      * eapply Forall_impl; [| exact Hrec].
        intro d. apply record_of_incl, retry_ids_incl.
    + rewrite map_app, <- app_assoc, Hperm. apply round_partition.
    + exact Hdone.
    + exact Hin.
    + exact Hzip.
Qed.

(** An identifier that never settles keeps the loop running. *)
Lemma retry_loop_stuck w i :
  (forall a, settled (outcome_of w a i) = false) ->
  forall fuel iteration ids fs,
    In i ids ->
    exists fs', retry_loop fuel w iteration ids fs = Running fs' /\
                zip_file fs' = zip_file fs.
Proof.
  intro Hi. induction fuel as [| fuel IH]; intros iteration ids fs Hin.
  - destruct ids; [destruct Hin |]. exists fs. now cbn.
  - destruct ids as [| i0 ids0]; [destruct Hin |].
    set (ids := i0 :: ids0) in *.
    assert (Hq : In i (retry_ids (run_round w iteration ids))).
    { rewrite run_round_spec. cbn [retry_ids].
      destruct (round_outcomes_covers w iteration ids i Hin) as (k & Hk).
      rewrite <- (id_of_outcome w (iteration, k) i).
      apply in_map, filter_In. split; [exact Hk |].
      unfold transient. now rewrite Hi. }
    cbn [retry_loop ids]. fold ids.
    assert (Hraised : raised (run_round w iteration ids) = None)
      by now rewrite run_round_spec.
    rewrite Hraised.
    destruct (retry_ids (run_round w iteration ids)) as [| j q] eqn:E;
      [destruct Hq |].
    rewrite <- E in Hq |- *.
    destruct (IH (S iteration) _
                 (mkFS (input_csv fs)
                       (append_rows (output_csv fs) (f_out (run_round w iteration ids)))
                       (round_files w iteration ids (html_dir fs)) (zip_file fs))
                 Hq) as (fs' & -> & Hz).
    exists fs'. auto.
Qed.

End MainFacts.

(** ** The run as a whole *)

Module RunFacts.
Import Py Csv Soup Fetch Main PyFacts FetchFacts MainFacts.
Local Open Scope list_scope.

Lemma is_settled_iff (status : Z) :
  is_settled status = true <-> status = 200 \/ status = 404.
Proof. unfold is_settled. rewrite orb_true_iff, !Z.eqb_eq. reflexivity. Qed.

Lemma init_output_csv fs :
  output_csv (init_output fs) =
  Some (match output_csv fs with Some old => old | None => [header_row] end).
Proof. unfold init_output. destruct (output_csv fs) eqn:E; [exact E | reflexivity]. Qed.

(** One turn of the [while] loop. *)
Lemma retry_loop_step w fuel iteration ids fs :
  ids <> [] ->
  retry_loop (S fuel) w iteration ids fs =
  let c := run_round w iteration ids in
  let fs' := mkFS (input_csv fs) (append_rows (output_csv fs) (f_out c))
                  (round_files w iteration ids (html_dir fs)) (zip_file fs) in
  match retry_ids c with
  | [] => Returned fs'
  | _ :: _ => retry_loop fuel w (S iteration) (retry_ids c) fs'
  end.
Proof.
  intro Hne. destruct ids as [| i ids]; [congruence |].
  cbn [retry_loop]. cbn zeta.
  assert (Hraised : raised (run_round w iteration (i :: ids)) = None)
    by now rewrite run_round_spec.
  rewrite Hraised.
  destruct (retry_ids (run_round w iteration (i :: ids))); [| reflexivity].
  now destruct fuel.
Qed.

(** [main] once the identifiers are read. *)
Lemma main_spec w fuel fs ids :
  get_ids_from_csv (input_csv fs) = Ok ids ->
  exists recs rest,
    (forall e fs', main fuel w fs <> Raised e fs') /\
    output_csv (fs_of (main fuel w fs)) =
      Some (match output_csv fs with Some old => old | None => [header_row] end
            ++ map row_of recs) /\
    Forall (record_of w ids) recs /\
    Permutation (map r_id recs ++ map format06 rest) (map format06 ids) /\
    (has_returned (main fuel w fs) = true -> rest = []).
Proof.
  intro Hids. unfold main. rewrite Hids.
  destruct (retry_loop_spec w fuel 1%nat ids (init_output fs) _ (init_output_csv fs))
    as (recs & rest & Hr & Hcsv & Hrec & Hperm & Hdone & _ & _).
  cbn zeta in *.
  exists recs, rest.
  destruct (retry_loop fuel w 1 ids (init_output fs)) as [fs' | e fs' | fs'];
    cbn in *; repeat split; auto; discriminate.
Qed.

End RunFacts.

(** * The properties of the specification, on the code *)

Import Py Csv Soup Fetch Main Spec Scenarios.
Import PyFacts FetchFacts MainFacts RunFacts.
Local Open Scope list_scope.

Lemma NoDup_123 : NoDup [1; 2; 3].
Proof. repeat constructor; cbn; intuition discriminate. Qed.

(** C1.  When [main] returns, with distinct input identifiers and no output
    file at the start, the output file is the header followed by exactly one
    record for every input identifier: the identifiers of the records are
    a rearrangement of the input identifiers without repetition, each input
    identifier occurs once, and every record has status 200 or 404. *)
Theorem sink_has_one_record_per_identifier w fuel fs fs' ids :
  get_ids_from_csv (input_csv fs) = Ok ids ->
  NoDup ids ->
  output_csv fs = None ->
  main fuel w fs = Returned fs' ->
  exists recs,
    output_csv fs' = Some (header_row :: map row_of recs) /\
    Permutation (map r_id recs) (map format06 ids) /\
    NoDup (map r_id recs) /\
    (forall i, In i ids ->
       count_occ string_dec (map r_id recs) (format06 i) = 1%nat) /\
    Forall (fun d => r_status d = 200 \/ r_status d = 404) recs.
Proof.
  intros Hids Hnd Hnone Hret.
  destruct (main_spec w fuel fs ids Hids)
    as (recs & rest & _ & Hcsv & Hrec & Hperm & Hdone).
  rewrite Hret, Hnone in *. cbn in Hcsv, Hdone.
  rewrite (Hdone eq_refl), app_nil_r in Hperm.
  assert (Hnd' : NoDup (map r_id recs)).
  { apply (Permutation_NoDup (Permutation_sym Hperm)).
    apply Finite.Injective_map_NoDup; [| exact Hnd].
    intros x y. apply format06_inj. }
  exists recs. repeat split; auto.
  - intros i Hi. apply NoDup_count_occ'; [exact Hnd' |].
    apply (Permutation_in _ (Permutation_sym Hperm)). now apply in_map.
  - eapply Forall_impl; [| exact Hrec].
    intros d [Hs _]. now apply is_settled_iff.
Qed.

Lemma sink_has_one_record_per_identifier_witness :
  exists recs,
    output_csv (fs_of (main 5 w_e2e fs_123)) = Some (header_row :: map row_of recs) /\
    Permutation (map r_id recs) (map format06 [1; 2; 3]) /\
    NoDup (map r_id recs) /\
    (forall i, In i [1; 2; 3] ->
       count_occ string_dec (map r_id recs) (format06 i) = 1%nat) /\
    Forall (fun d => r_status d = 200 \/ r_status d = 404) recs.
Proof.
  apply (sink_has_one_record_per_identifier w_e2e 5 fs_123).
  - reflexivity.
  - exact NoDup_123.
  - reflexivity.
  - vm_compute. reflexivity.
Defined.




(** C3, as amended.  In every round the rows written are as many as the
    outcomes with status 200 or 404, the queued identifiers as many as the
    other outcomes, and the settled and the queued identifiers together
    are the identifiers of the round; no identifier is both settled and
    queued when the identifiers of the round are distinct. *)
Theorem round_partitions_identifiers w iteration ids :
  round_sizes w iteration ids /\
  round_union w iteration ids /\
  Permutation (settled_ids (run_round w iteration ids)
               ++ retry_ids (run_round w iteration ids)) ids /\
  (NoDup ids -> round_disjoint w iteration ids).
Proof.
  assert (Hsettled :
    settled_ids (run_round w iteration ids) =
    map id_of (filter settled (round_outcomes w iteration ids))).
  { unfold settled_ids. rewrite run_round_spec. cbn [f_out].
    rewrite map_map. reflexivity. }
  assert (Hperm :
    Permutation (settled_ids (run_round w iteration ids)
                 ++ retry_ids (run_round w iteration ids)) ids).
  { rewrite Hsettled, run_round_spec. cbn [retry_ids].
    rewrite <- map_app. unfold transient. rewrite (filter_split settled).
    pose proof (round_outcomes_ids w iteration ids) as H.
    rewrite <- (round_ids_back w iteration ids) in H by apply incl_refl.
    apply (Permutation_map int_of_str) in H.
    rewrite !map_map in H.
    rewrite (map_ext _ Some) in H by (intro; apply int_of_str_format06).
    rewrite (map_ext (fun x => int_of_str (format06 (id_of x)))
                     (fun x => Some (id_of x))) in H
      by (intro; apply int_of_str_format06).
    rewrite <- (map_map id_of Some) in H.
    assert (Hinj : forall l l' : list Z,
               Permutation (map Some l) (map Some l') -> Permutation l l').
    { intros l l' Hp.
      apply (Permutation_map (fun o => match o with Some z => z | None => 0 end)) in Hp.
      now rewrite !map_map, !map_id in Hp. }
    now apply Hinj. }
  repeat split.
  - rewrite run_round_spec. cbn [f_out]. rewrite length_map.
    unfold count_status, settled, is_settled. clear Hsettled Hperm.
    induction (round_outcomes w iteration ids) as [| d ds IH]; [reflexivity |].
    cbn [filter].
    destruct (Z.eqb_spec (r_status d) 200) as [E200 | N200];
      destruct (Z.eqb_spec (r_status d) 404) as [E404 | N404];
      [lia | ..]; cbn [orb List.length]; rewrite IH, ?Nat.add_succ_r;
      reflexivity.
  - rewrite run_round_spec. cbn [retry_ids]. now rewrite length_map.
  - intro Hi. apply in_app_or.
    apply (Permutation_in _ (Permutation_sym Hperm)). exact Hi.
  - intro Hi. apply (Permutation_in _ Hperm). now apply in_or_app.
  - exact Hperm.
  - intros Hnd i Hs Hr.
    apply (Permutation_NoDup (Permutation_sym Hperm)) in Hnd.
    apply NoDup_app_remove_l in Hnd as Hnd'.
    revert Hs Hr. clear -Hnd.
    induction (settled_ids (run_round w iteration ids)) as [| x l IH];
      intros Hs Hr; [destruct Hs |].
    cbn in Hnd. inversion Hnd as [| ? ? Hx Hl]; subst.
    destruct Hs as [-> | Hs]; [| now apply IH].
    apply Hx. now apply in_or_app; right.
Qed.

Lemma round_partitions_identifiers_witness :
  round_disjoint w_e2e 1 [1; 2; 3].
Proof.
  apply (round_partitions_identifiers w_e2e 1 [1; 2; 3]).
  exact NoDup_123.
Defined.

(** C3, as stated, fails on a round that holds an identifier twice: one
    attempt settles it, the other queues it. *)
Lemma round_partition_claim_fails :
  ~ round_partition_claim w_first_served 1 [5; 5].
Proof.
  intros (_ & _ & H). apply (H 5); vm_compute; auto.
Qed.

(** C4.  The loop ends with the first round that queues nothing, and it
    has no bound on the number of rounds: when some input identifier gets
    a status other than 200 and 404 on every attempt, then however many
    rounds are run the program is still inside the loop, and the archive
    has not been made. *)
Theorem retry_loop_has_no_cap w :
  (forall fuel iteration ids fs,
     ids <> [] ->
     let c := run_round w iteration ids in
     let fs' := mkFS (input_csv fs) (append_rows (output_csv fs) (f_out c))
                     (round_files w iteration ids (html_dir fs)) (zip_file fs) in
     retry_loop (S fuel) w iteration ids fs =
     match retry_ids c with
     | [] => Returned fs'
     | _ :: _ => retry_loop fuel w (S iteration) (retry_ids c) fs'
     end) /\
  (forall fs ids i,
     get_ids_from_csv (input_csv fs) = Ok ids ->
     In i ids ->
     (forall a, is_settled (r_status (outcome_of w a i)) = false) ->
     forall fuel,
       exists fs', main fuel w fs = Running fs' /\ zip_file fs' = zip_file fs).
Proof.
  split.
  - intros fuel iteration ids fs Hne. now apply retry_loop_step.
  - intros fs ids i Hids Hin Hstuck fuel.
    unfold main. rewrite Hids.
    destruct (retry_loop_stuck w i Hstuck fuel 1%nat ids (init_output fs) Hin)
      as (fs' & -> & Hz).
    exists fs'. split; [reflexivity |].
    rewrite Hz. unfold init_output. now destruct (output_csv fs).
Qed.

Lemma retry_loop_has_no_cap_witness :
  exists fs', main 1000 w_429 fs_7 = Running fs' /\ zip_file fs' = None.
Proof.
  apply (proj2 (retry_loop_has_no_cap w_429) fs_7 [7] 7).
  - reflexivity.
  - left. reflexivity.
  - intro a. rewrite outcome_of_cases. reflexivity.
Defined.

(** C5.  [process_activation_id] returns for every identifier, on every
    attempt and in every world, and what it returns carries the
    identifier; when an exception leaves its [try] block, whether raised
    by the request or by the processing after it, the outcome returned has
    status 0 and payload ["Error"].  So no round is left by an exception,
    whatever its identifiers. *)
Theorem process_activation_id_never_raises w a i :
  process_activation_id w a i =
    (Ok (outcome_of w a i), snd (process_activation_id w a i)) /\
  r_id (outcome_of w a i) = format06 i /\
  (forall iteration ids, raised (run_round w iteration ids) = None) /\
  (fetch_raises w a i = true ->
   r_status (outcome_of w a i) = 0 /\
   r_secret_code (outcome_of w a i) = "Error"%string).
Proof.
  split; [apply process_activation_id_returns |].
  split; [apply outcome_of_id |].
  split; [intros; now rewrite run_round_spec |].
  intro Hraise. rewrite outcome_of_cases.
  destruct (session_get w a 0 _) as [response | e] eqn:Hget; [| now split].
  destruct (status_code response =? 200) eqn:E.
  - rewrite Hraise. now split.
  - unfold fetch_raises in Hraise. rewrite fetch_body_run, Hget, E in Hraise.
    discriminate.
Qed.

Lemma process_activation_id_never_raises_witness :
  r_status (outcome_of w_disk_full (1%nat, 0%nat) 1) = 0 /\
  r_secret_code (outcome_of w_disk_full (1%nat, 0%nat) 1) = "Error"%string.
Proof.
  apply (process_activation_id_never_raises w_disk_full (1%nat, 0%nat) 1).
  vm_compute. reflexivity.
Defined.

Lemma has_extraction_target_false page :
  has_extraction_target page = false -> extract_secret_code page = None.
Proof.
  unfold has_extraction_target, extract_secret_code, find. intro H.
  destruct (find_all is_clipboard_div page) as [| clipboard_div divs];
    [reflexivity |].
  cbn [existsb hd_error] in *. apply orb_false_iff in H as [H _].
  destruct (find_all (is_tag "input") (node_children clipboard_div))
    as [| input_field inputs]; [reflexivity |].
  cbn [existsb hd_error] in *. apply orb_false_iff in H as [H _].
  destruct (attr_get (node_attrs input_field) "value") as [v |];
    [| reflexivity].
  now destruct (String.eqb v "").
Qed.

(** C6, as amended.  When the page loads with status 200 and holds no
    clipboard container with an input value, the outcome keeps status 200
    with the payload ["Not Found"] provided no exception leaves the [try]
    block while the instruction card is cut out and saved; if one does,
    the handler returns status 0 with ["Error"].  No exception is raised
    when the page has no instruction card. *)
Theorem missing_code_keeps_status w a i response :
  session_get w a 0 (activation_url (format06 i)) = Ok response ->
  status_code response = 200 ->
  has_extraction_target (text response) = false ->
  (fetch_raises w a i = false ->
   outcome_of w a i = mkResult (format06 i) "Not Found" 200) /\
  (fetch_raises w a i = true ->
   outcome_of w a i = mkResult (format06 i) "Error" 0) /\
  (find is_instruction_card (text response) = None ->
   fetch_raises w a i = false).
Proof.
  intros Hget Hst Hno.
  rewrite outcome_of_cases, Hget, Hst. cbn [Z.eqb Pos.eqb].
  unfold payload_of. rewrite (has_extraction_target_false _ Hno).
  repeat split.
  - now intros ->.
  - now intros ->.
  - intro Hcard. unfold fetch_raises.
    rewrite fetch_body_run, Hget, Hst. cbn [Z.eqb Pos.eqb].
    unfold save_instruction_card. now rewrite Hcard.
Qed.

Lemma missing_code_keeps_status_witness :
  outcome_of w_no_code (1%nat, 0%nat) 7 = mkResult (format06 7) "Not Found" 200.
Proof.
  apply (missing_code_keeps_status w_no_code (1%nat, 0%nat) 7
           (mkResponse 200 page_without_code "")); reflexivity.
Defined.

(** C6, as stated, fails when the page has an instruction card and the
    document cannot be saved: the outcome is status 0 with ["Error"]. *)
Lemma sentinel_claim_fails : ~ sentinel_claim w_disk_full (1%nat, 0%nat) 1.
Proof.
  intro H.
  destruct (H (mkResponse 200 page_without_code "")) as [Hst _];
    [reflexivity .. |].
  vm_compute in Hst. discriminate.
Qed.

(** [download_asset] never raises. *)
Lemma download_asset_returns w a url s :
  exists local_path, fst (download_asset w a url s) = Ok local_path.
Proof.
  unfold download_asset, try_except.
  destruct (download_asset_body w a url s) as [[p | e] s'];
    [exists p | exists url]; reflexivity.
Qed.

(** When the request for the asset raises, the original URL is returned
    and nothing is written. *)
Lemma download_asset_falls_back w a url s path e :
  urlparse_path w url = Ok path ->
  path_exists w a (tick s) (path_join ASSETS_DIR (save_name_of w url path)) = false ->
  session_get w a (S (tick s)) url = Raise e ->
  download_asset w a url s =
  (Ok url, mkT (S (S (tick s))) (written s) (result s)).
Proof.
  intros Hpath Hex Hget.
  unfold download_asset, download_asset_body, try_except, exists_, get,
    next_tick, lift, bind, ret.
  rewrite Hpath. cbn [tick written result]. rewrite Hex.
  cbn [negb tick written result].
  now rewrite Hget.
Qed.

(** When the asset server answers with a status other than 200, nothing
    is written either, yet the local path is returned. *)
Lemma download_asset_non_200 w a url s path response :
  urlparse_path w url = Ok path ->
  path_exists w a (tick s) (path_join ASSETS_DIR (save_name_of w url path)) = false ->
  session_get w a (S (tick s)) url = Ok response ->
  status_code response <> 200 ->
  download_asset w a url s =
  (Ok ("assets/" ++ save_name_of w url path)%string,
   mkT (S (S (tick s))) (written s) (result s)).
Proof.
  intros Hpath Hex Hget Hst.
  unfold download_asset, download_asset_body, try_except, exists_, get,
    next_tick, lift, bind, ret.
  rewrite Hpath. cbn [tick written result]. rewrite Hex.
  cbn [negb tick written result].
  rewrite Hget.
  destruct (Z.eqb_spec (status_code response) 200); [contradiction |].
  reflexivity.
Qed.

(** C7, at the failing input.  The asset server answers 404 for the logo:
    [download_asset] writes no file and returns the local path, and the
    document saved for identifier 1 refers to [assets/logo_0a1b2c3d.png],
    a file that was never saved, instead of the remote URL.  When the
    request raises, the remote URL is kept. *)
Theorem asset_404_leaves_dead_reference :
  download_asset w_asset_404 (1%nat, 0%nat) logo_url (initial_tstate "000001") =
    (Ok "assets/logo_0a1b2c3d.png"%string,
     mkT 2 [] (mkResult "000001" "Not Found" 0)) /\
  download_asset w_asset_down (1%nat, 0%nat) logo_url (initial_tstate "000001") =
    (Ok logo_url, mkT 2 [] (mkResult "000001" "Not Found" 0)) /\
  outcome_of w_asset_404 (1%nat, 0%nat) 1 = mkResult "000001" "ABC123" 200 /\
  written (snd (process_activation_id w_asset_404 (1%nat, 0%nat) 1)) =
    [("html_responses/000001.html"%string,
      Html
        [Doctype "html";
         Tag "html" []
           [Tag "head" []
              [Tag "link"
                 [("rel", "stylesheet"); ("href", "assets/app_0a1b2c3d.css")]%string
                 []];
            Tag "body" []
              [Tag "div" [("class", "card instruction-card")]%string
                 [Tag "img" [("src", "assets/logo_0a1b2c3d.png")]%string [];
                  Tag "a" [("href", "https://www.joinsecret.com/deals")]%string
                    [NavigableString "All deals"]]]]])].
Proof. repeat split; vm_compute; reflexivity. Qed.

Lemma main_output_grows w fuel fs old :
  output_csv fs = Some old ->
  exists recs,
    output_csv (fs_of (main fuel w fs)) = Some (old ++ map row_of recs).
Proof.
  intro Hold.
  destruct (get_ids_from_csv (input_csv fs)) as [ids | e] eqn:Hids.
  - destruct (main_spec w fuel fs ids Hids) as (recs & rest & _ & Hcsv & _).
    rewrite Hold in Hcsv. now exists recs.
  - exists []. unfold main. rewrite Hids. cbn. now rewrite app_nil_r.
Qed.

(** C8.  A run only ever adds rows at the end of the output file: with
    the file there at the start, its old contents are a prefix of the
    file after any number of rounds and no header is added; without it,
    the file starts with one header row, unless reading the input already
    left the program, and no record row is a header; each round appends
    its rows through [append_rows]; and a second run over what the first
    left keeps every row of the first in place. *)
Theorem output_file_is_append_only w fuel fs :
  (forall old,
     output_csv fs = Some old ->
     exists recs,
       output_csv (fs_of (main fuel w fs)) = Some (old ++ map row_of recs)) /\
  (output_csv fs = None ->
   (exists e, main fuel w fs = Raised e fs) \/
   (exists recs,
      output_csv (fs_of (main fuel w fs)) =
      Some (header_row :: map row_of recs))) /\
  (forall d, row_of d <> header_row) /\
  (forall iteration ids fs0,
     ids <> [] ->
     output_csv (fs_of (retry_loop 1 w iteration ids fs0)) =
     append_rows (output_csv fs0) (f_out (run_round w iteration ids))) /\
  (forall w' fuel' old,
     output_csv (fs_of (main fuel w fs)) = Some old ->
     exists recs,
       output_csv (fs_of (main fuel' w' (fs_of (main fuel w fs)))) =
       Some (old ++ map row_of recs)).
Proof.
  repeat split.
  - intros old Hold. now apply main_output_grows.
  - intro Hnone.
    destruct (get_ids_from_csv (input_csv fs)) as [ids | e] eqn:Hids.
    + right. destruct (main_spec w fuel fs ids Hids) as (recs & rest & _ & Hcsv & _).
      rewrite Hnone in Hcsv. now exists recs.
    + left. exists e. unfold main. now rewrite Hids.
  - intros d H. discriminate.
  - intros iteration ids fs0 Hne. rewrite retry_loop_step by exact Hne.
    cbn zeta. destruct (retry_ids (run_round w iteration ids)); reflexivity.
  - intros w' fuel' old Hold. now apply main_output_grows.
Qed.

Lemma output_file_is_append_only_witness :
  exists recs,
    output_csv (fs_of (main 5 w_e2e (fs_of (main 1 w_e2e fs_123)))) =
    Some ([header_row;
           [CStr "000001"; CStr "ABC123"; CInt 200];
           [CStr "000002"; CStr "Not Found"; CInt 404]] ++ map row_of recs).
Proof.
  apply (output_file_is_append_only w_e2e 1 fs_123). reflexivity.
Defined.

Lemma in_lstrip (c : ascii) (s : string) :
  is_int_space c = false ->
  In c (list_ascii_of_string s) -> In c (list_ascii_of_string (lstrip s)).
Proof.
  intro Hc. induction s as [| x s IH]; intro H; [exact H |].
  cbn [lstrip]. destruct (is_int_space x) eqn:Ex; [| exact H].
  apply IH. destruct H as [-> | H]; [congruence | exact H].
Qed.

Lemma in_rstrip (c : ascii) (s : string) :
  is_int_space c = false ->
  In c (list_ascii_of_string s) -> In c (list_ascii_of_string (rstrip s)).
Proof.
  intro Hc. induction s as [| x s IH]; intro H; [exact H |].
  cbn [rstrip]. cbn [list_ascii_of_string] in H. destruct H as [-> | H].
  - destruct (rstrip s); [rewrite Hc |]; now left.
  - specialize (IH H). destruct (rstrip s); [destruct IH |]. now right.
Qed.

Lemma int_digits_chars (s : string) :
  forall acc prev v,
    int_digits s acc prev = Some v ->
    forall c, In c (list_ascii_of_string s) ->
              is_digit c = true \/ Ascii.eqb c "_" = true.
Proof.
  induction s as [| x s IH]; intros acc prev v H c Hc; [destruct Hc |].
  cbn [int_digits] in H. cbn [list_ascii_of_string] in Hc.
  destruct (is_digit x) eqn:Ed.
  - destruct Hc as [<- | Hc]; [now left | eapply IH; eassumption].
  - destruct (Ascii.eqb x "_") eqn:Eu; [| discriminate].
    destruct prev; [| discriminate].
    destruct Hc as [<- | Hc]; [now right | eapply IH; eassumption].
Qed.

(** Python refuses such text, and so do the two readers of literals. *)
Lemma not_a_literal_refused (s : string) :
  not_a_literal s -> int_of_str s = None /\ int_limited s = None.
Proof.
  intro H.
  assert (Hint : int_of_str s = None).
  { unfold int_of_str. destruct H as [-> | (c & Hin & Hc)]; [reflexivity |].
    unfold never_in_a_literal in Hc.
    repeat (apply andb_true_iff in Hc as [Hc ?]).
    repeat match goal with
           | H : negb _ = true |- _ => apply negb_true_iff in H
           end.
    assert (Hstrip : In c (list_ascii_of_string (strip s)))
      by (unfold strip; now apply in_rstrip, in_lstrip).
    destruct (strip s) as [| x d]; [reflexivity |].
    assert (Hbad : forall t acc prev,
              In c (list_ascii_of_string t) -> int_digits t acc prev = None).
    { intros t acc prev Ht.
      destruct (int_digits t acc prev) as [v |] eqn:E; [| reflexivity].
      destruct (int_digits_chars t acc prev v E c Ht); congruence. }
    destruct (Ascii.eqb_spec x "-") as [-> | _].
    { destruct Hstrip as [<- | Hd]; [discriminate |].
      now rewrite (Hbad d 0 false Hd). }
    destruct (Ascii.eqb_spec x "+") as [-> | _].
    { destruct Hstrip as [<- | Hd]; [discriminate |]. now apply Hbad. }
    now apply Hbad. }
  split; [exact Hint |].
  unfold int_limited. rewrite Hint. now destruct (Nat.ltb _ _).
Qed.

(** C9, as amended.  Only a failure other than a missing file stops the
    program: it leaves [main] before anything is written.  A missing input
    file is read as an empty list of identifiers: no round is run, the
    header-only output file is created if there was none, and the archive
    is made.  A row whose identifier field is blank, or holds a character
    that no integer literal holds (a letter, a dot, a slash), is passed
    over. *)
Theorem missing_input_is_an_empty_run w fuel fs :
  (forall e,
     input_csv fs = OpenError e -> e <> FileNotFoundError ->
     main fuel w fs = Raised e fs) /\
  (input_csv fs = OpenError FileNotFoundError ->
   main fuel w fs = Returned (create_zip_archive (init_output fs))) /\
  (forall row rows ids s,
     dict_get row (Some "Activation ID"%string) = Some (VStr s) ->
     not_a_literal s ->
     collect_ids (row :: rows) ids = collect_ids rows ids).
Proof.
  repeat split.
  - intros e He Hne. unfold main. rewrite He.
    destruct e; cbn; congruence.
  - intro He. unfold main. rewrite He. cbn [get_ids_from_csv].
    now destruct fuel.
  - intros row rows ids s Hget Hbad.
    cbn [collect_ids]. unfold dict_mem. rewrite Hget.
    cbn [int_of_value].
    now rewrite (proj2 (not_a_literal_refused s Hbad)).
Qed.

Lemma missing_input_is_an_empty_run_witness :
  main 5 w_e2e fs_forbidden = Raised PermissionError fs_forbidden /\
  main 5 w_e2e fs_missing = Returned (create_zip_archive (init_output fs_missing)) /\
  collect_ids (dict_reader [["Activation ID"]; ["n/a"]; ["3"]])%string [] =
  collect_ids (dict_reader [["Activation ID"]; ["3"]])%string [].
Proof.
  split; [| split].
  - apply (proj1 (missing_input_is_an_empty_run w_e2e 5 fs_forbidden));
      [reflexivity | discriminate].
  - apply (proj1 (proj2 (missing_input_is_an_empty_run w_e2e 5 fs_missing))).
    reflexivity.
  - apply (proj2 (proj2 (missing_input_is_an_empty_run w_e2e 5 fs_missing))
             _ _ [] "n/a"%string); [reflexivity |].
    right. exists "n"%char. split; [now left | reflexivity].
Defined.

(** C9, as stated, fails when the input file is missing: the program
    returns, having created the output file and the archive. *)
Lemma unreadable_input_claim_fails : ~ unreadable_input_claim w_e2e 5 fs_missing.
Proof.
  intro H. specialize (H FileNotFoundError eq_refl). discriminate.
Qed.

(** A settled outcome was not made by the handler, and its payload is the
    sentinel or the value read from the page. *)
Lemma settled_outcome_payload w a i :
  settled (outcome_of w a i) = true ->
  fetch_raises w a i = false /\
  (r_secret_code (outcome_of w a i) = "Not Found"%string \/
   exists response,
     session_get w a 0 (activation_url (format06 i)) = Ok response /\
     status_code response = 200 /\
     extract_secret_code (text response) = Some (r_secret_code (outcome_of w a i))).
Proof.
  intro Hs. unfold settled in Hs.
  pose proof (outcome_of_cases w a i) as Hc.
  destruct (session_get w a 0 _) as [response | e] eqn:Hget;
    [| rewrite Hc in Hs; discriminate].
  destruct (Z.eqb_spec (status_code response) 200) as [E | NE].
  - destruct (fetch_raises w a i) eqn:Hr; [rewrite Hc in Hs; discriminate |].
    split; [reflexivity |]. rewrite Hc. cbn [r_secret_code].
    unfold payload_of.
    destruct (extract_secret_code (text response)) as [v |] eqn:Hx;
      [right; exists response; auto | now left].
  - split; [| left; now rewrite Hc].
    unfold fetch_raises. rewrite fetch_body_run, Hget.
    now destruct (Z.eqb_spec (status_code response) 200).
Qed.

(** C10, as amended.  Every row the run adds to the output file is the
    row of an outcome with status 200 or 404 whose [try] block was not
    left by an exception, and its payload is either ["Not Found"] or the
    value read from the page that was fetched for it.  (The payload the
    handler stores comes with status 0 and is never written; a row shows
    ["Error"] only when that is the value on the page.) *)
Theorem persisted_payload_is_code_or_sentinel w fuel fs ids :
  get_ids_from_csv (input_csv fs) = Ok ids ->
  exists recs,
    output_csv (fs_of (main fuel w fs)) =
      Some (match output_csv fs with Some old => old | None => [header_row] end
            ++ map row_of recs) /\
    Forall
      (fun d =>
         (r_status d = 200 \/ r_status d = 404) /\
         exists a i,
           In i ids /\ d = outcome_of w a i /\
           fetch_raises w a i = false /\
           (r_secret_code d = "Not Found"%string \/
            exists response,
              session_get w a 0 (activation_url (format06 i)) = Ok response /\
              status_code response = 200 /\
              extract_secret_code (text response) = Some (r_secret_code d)))
      recs.
Proof.
  intro Hids.
  destruct (main_spec w fuel fs ids Hids) as (recs & rest & _ & Hcsv & Hrec & _).
  exists recs. split; [exact Hcsv |].
  eapply Forall_impl; [| exact Hrec].
  intros d (Hs & a & i & Hi & ->).
  split; [now apply is_settled_iff |].
  exists a, i.
  destruct (settled_outcome_payload w a i Hs) as [Hr Hp]. auto.
Qed.

Lemma persisted_payload_is_code_or_sentinel_witness :
  exists recs,
    output_csv (fs_of (main 5 w_e2e fs_123)) = Some ([header_row] ++ map row_of recs) /\
    Forall
      (fun d =>
         (r_status d = 200 \/ r_status d = 404) /\
         exists a i,
           In i [1; 2; 3] /\ d = outcome_of w_e2e a i /\
           fetch_raises w_e2e a i = false /\
           (r_secret_code d = "Not Found"%string \/
            exists response,
              session_get w_e2e a 0 (activation_url (format06 i)) = Ok response /\
              status_code response = 200 /\
              extract_secret_code (text response) = Some (r_secret_code d)))
      recs.
Proof.
  apply (persisted_payload_is_code_or_sentinel w_e2e 5 fs_123 [1; 2; 3]).
  reflexivity.
Defined.

(** C10, as stated, fails when the code shown on the page is the word
    Error: the row of identifier 7 has status 200 and payload ["Error"]. *)
Lemma no_error_payload_claim_fails :
  ~ no_error_payload_claim w_code_is_error 5 fs_7.
Proof.
  intro H.
  apply (H [header_row; [CStr "000007"; CStr "Error"; CInt 200]]
           "000007"%string 200).
  - vm_compute. reflexivity.
  - right. left. reflexivity.
Qed.

(** * Further properties of the code *)

(** ** Identifiers as text *)

(** X1.  The identifier that [process_activation_id] renders into the URL
    and into [result['id']] is read back unchanged by [int] when the
    identifier is queued for another round: for every integer, negative
    and longer than six digits included.  Two identifiers are never
    rendered alike. *)
Theorem identifier_survives_rendering :
  (forall z, int_of_str (format06 z) = Some z) /\
  (forall x y, format06 x = format06 y -> x = y) /\
  (forall z, activation_url (format06 z) =
             ("https://www.joinsecret.com/activation/" ++ format06 z)%string).
Proof.
  split; [exact int_of_str_format06 |].
  split; [exact format06_inj | reflexivity].
Qed.

Lemma length_append (a b : string) :
  String.length (a ++ b) = (String.length a + String.length b)%nat.
Proof. induction a as [| c a IH]; cbn; [reflexivity | now rewrite IH]. Qed.

Lemma length_zeros (k : nat) : String.length (zeros k) = k.
Proof. induction k; cbn; [reflexivity | now rewrite IHk]. Qed.

Lemma length_zfill (width : nat) (s : string) :
  String.length (zfill width s) = Nat.max width (String.length s).
Proof. unfold zfill. rewrite length_append, length_zeros. lia. Qed.



(** ** Reading the input file *)

Lemma key_eqb_eq (a b : key) : key_eqb a b = true <-> a = b.
Proof.
  destruct a as [x |], b as [y |]; cbn; try (split; congruence).
  rewrite String.eqb_eq. split; congruence.
Qed.

Lemma key_eqb_refl (a : key) : key_eqb a a = true.
Proof. now apply key_eqb_eq. Qed.

(** Looking up after an assignment. *)
Lemma dict_get_set (d : dict) (k q : key) (v : value) :
  dict_get (dict_set d k v) q =
  if key_eqb k q then Some v else dict_get d q.
Proof.
  induction d as [| [k' v'] d IH]; cbn [dict_set dict_get]; [reflexivity |].
  destruct (key_eqb k' k) eqn:Ek; cbn [dict_get].
  - apply key_eqb_eq in Ek. subst k'. now destruct (key_eqb k q).
  - rewrite IH. destruct (key_eqb k' q) eqn:Eq; [| reflexivity].
    apply key_eqb_eq in Eq. subst k'.
    destruct (key_eqb k q) eqn:Ekq; [| reflexivity].
    apply key_eqb_eq in Ekq. subst k. now rewrite key_eqb_refl in Ek.
Qed.



Lemma fill_restval_keeps (ks : list string) (d : dict) (k : string) :
  dict_get d (Some k) = Some VNone ->
  dict_get (fold_left (fun d k => dict_set d (Some k) VNone) ks d) (Some k) =
  Some VNone.
Proof.
  revert d. induction ks as [| f ks IH]; intros d Hd; [exact Hd |].
  cbn [fold_left]. apply IH. rewrite dict_get_set.
  now destruct (key_eqb (Some f) (Some k)).
Qed.

Lemma fill_restval_sets (ks : list string) (d : dict) (k : string) :
  In k ks ->
  dict_get (fold_left (fun d k => dict_set d (Some k) VNone) ks d) (Some k) =
  Some VNone.
Proof.
  revert d. induction ks as [| f ks IH]; intros d Hk; [destruct Hk |].
  cbn [fold_left]. destruct Hk as [-> | Hk]; [| now apply IH].
  apply fill_restval_keeps. rewrite dict_get_set. now rewrite key_eqb_refl.
Qed.




Lemma in_skipn_lt {A} (x : A) (n : nat) (l : list A) :
  In x (skipn n l) -> (n < List.length l)%nat.
Proof.
  intro H. destruct (Nat.lt_ge_cases n (List.length l)) as [Hlt | Hge];
    [exact Hlt |].
  rewrite (skipn_all2 l Hge) in H. destruct H.
Qed.

(** X4.  A row that ends before the [Activation ID] column stops the
    program: [DictReader] fills the missing field with [None], [int(None)]
    raises [TypeError], and neither handler of [get_ids_from_csv] catches
    it. *)
Theorem short_row_raises_type_error (fieldnames row : list string)
    (rest : list (list string)) :
  row <> [] ->
  In "Activation ID"%string (skipn (List.length row) fieldnames) ->
  get_ids_from_csv (Contents (fieldnames :: row :: rest)) = Raise TypeError.
Proof.
  intros Hrow Hin. cbn [get_ids_from_csv dict_reader].
  destruct row as [| x xs]; [congruence |]. cbn [filter map collect_ids].
  assert (Hget : dict_get (dict_row fieldnames (x :: xs)) (Some "Activation ID"%string)
                 = Some VNone).
  { unfold dict_row. pose proof (in_skipn_lt _ _ _ Hin) as Hlt.
    destruct (Nat.ltb_spec (List.length fieldnames) (List.length (x :: xs)));
      [lia |].
    destruct (Nat.ltb_spec (List.length (x :: xs)) (List.length fieldnames));
      [| lia].
    now apply fill_restval_sets. }
  unfold dict_mem. rewrite Hget. reflexivity.
Qed.

Lemma short_row_raises_type_error_witness :
  get_ids_from_csv
    (Contents [["Status Code"; "Activation ID"]; ["404"]; ["200"; "1"]])%string
  = Raise TypeError.
Proof.
  apply short_row_raises_type_error; [discriminate | cbn; auto].
Defined.

Lemma collect_ids_raises (rows : list dict) (ids : list Z) (e : exn) :
  collect_ids rows ids = Raise e -> e = TypeError.
Proof.
  revert ids. induction rows as [| row rows IH]; intros ids H; [discriminate |].
  cbn [collect_ids] in H.
  destruct (dict_mem row (Some "Activation ID"%string)); [| now apply IH in H].
  destruct (dict_get row (Some "Activation ID"%string)) as [v |];
    [| now apply IH in H].
  destruct v as [s | | l]; cbn [int_of_value] in H.
  - destruct (int_limited s); now apply IH in H.
  - congruence.
  - congruence.
Qed.

Lemma collect_ids_text (rows : list dict) :
  Forall (fun row =>
            match dict_get row (Some "Activation ID"%string) with
            | Some VNone | Some (VList _) => False
            | _ => True
            end) rows ->
  forall ids, exists ids', collect_ids rows ids = Ok ids'.
Proof.
  induction 1 as [| row rows Hrow _ IH]; intro ids; [now exists ids |].
  cbn [collect_ids].
  destruct (dict_mem row (Some "Activation ID"%string)); [| apply IH].
  destruct (dict_get row (Some "Activation ID"%string)) as [[s | | l] |];
    try contradiction; [| apply IH].
  cbn [int_of_value]. destruct (int_limited s); apply IH.
Qed.

(** X5.  [get_ids_from_csv] raises nothing but: the error of [open],
    unless the file is missing; the error that decoding or parsing raised
    while the file was read; or a [TypeError], for a row without the
    identifier field.  The text of an identifier field never makes it
    raise: a file that is read to its end and whose rows all have the
    field gives a list. *)
Theorem get_ids_from_csv_errors :
  (forall f e,
     get_ids_from_csv f = Raise e ->
     (f = OpenError e /\ e <> FileNotFoundError) \/
     (exists records,
        f = ReadError records e /\ e <> FileNotFoundError /\
        exists ids, collect_ids (dict_reader records) [] = Ok ids) \/
     (exists records,
        (f = Contents records \/ exists e0, f = ReadError records e0) /\
        e = TypeError /\
        collect_ids (dict_reader records) [] = Raise TypeError)) /\
  (forall records,
     Forall (fun row =>
               match dict_get row (Some "Activation ID"%string) with
               | Some VNone | Some (VList _) => False
               | _ => True
               end) (dict_reader records) ->
     exists ids, get_ids_from_csv (Contents records) = Ok ids).
Proof.
  split.
  - intros f e H. destruct f as [e' | records | records e'];
      cbn [get_ids_from_csv] in H.
    + left. destruct e'; inversion H; subst; split; congruence.
    + right. right. exists records.
      pose proof (collect_ids_raises _ _ _ H) as ->. auto.
    + destruct (collect_ids (dict_reader records) []) as [ids | e1] eqn:E.
      * right. left. exists records.
        destruct e'; inversion H; subst; repeat split; eauto; congruence.
      * right. right. exists records. inversion H; subst.
        pose proof (collect_ids_raises _ _ _ E) as ->. eauto.
  - intros records Hrows. cbn [get_ids_from_csv].
    now apply collect_ids_text.
Qed.

Lemma get_ids_from_csv_errors_witness :
  (exists ids,
     get_ids_from_csv
       (Contents [["Activation ID"; "Status Code"]; ["1"; "0"]; ["x1"; "0"];
                  ["2"]; ["3"; "0"; "extra"]])%string = Ok ids) /\
  ((ReadError [["Activation ID"]; ["1"]]%string UnicodeDecodeError
    = OpenError UnicodeDecodeError /\ UnicodeDecodeError <> FileNotFoundError) \/
   (exists records,
      ReadError [["Activation ID"]; ["1"]]%string UnicodeDecodeError
      = ReadError records UnicodeDecodeError /\
      UnicodeDecodeError <> FileNotFoundError /\
      exists ids, collect_ids (dict_reader records) [] = Ok ids) \/
   (exists records,
      (ReadError [["Activation ID"]; ["1"]]%string UnicodeDecodeError
       = Contents records \/
       exists e0, ReadError [["Activation ID"]; ["1"]]%string UnicodeDecodeError
                  = ReadError records e0) /\
      UnicodeDecodeError = TypeError /\
      collect_ids (dict_reader records) [] = Raise TypeError)).
Proof.
  split.
  - apply (proj2 get_ids_from_csv_errors). repeat constructor.
  - apply (proj1 get_ids_from_csv_errors). reflexivity.
Defined.

(** ** The width of a rendered identifier *)

Lemma uint_val_lower (d : Decimal.uint) (acc : Z) :
  0 <= acc ->
  acc * 10 ^ Z.of_nat (String.length (NilEmpty.string_of_uint d))
  <= uint_val d acc.
Proof.
  revert acc.
  induction d; intros acc Hacc;
    cbn [NilEmpty.string_of_uint String.length uint_val];
    [cbn; lia | ..];
    rewrite Nat2Z.inj_succ, Z.pow_succ_r by lia;
    match goal with
    | |- _ <= uint_val _ ?a =>
        specialize (IHd a ltac:(lia));
        assert (0 <= 10 ^ Z.of_nat (String.length (NilEmpty.string_of_uint d)))
          by (apply Z.pow_nonneg; lia);
        nia
    end.
Qed.

Lemma nzhead_head (d : Decimal.uint) :
  match Decimal.nzhead d with
  | Decimal.D0 _ => False
  | _ => True
  end.
Proof. induction d; cbn; auto. Qed.

Lemma unorm_head (d : Decimal.uint) :
  Decimal.unorm d = Decimal.D0 Decimal.Nil \/
  match Decimal.unorm d with
  | Decimal.Nil | Decimal.D0 _ => False
  | _ => True
  end.
Proof.
  unfold Decimal.unorm. pose proof (nzhead_head d) as H.
  destruct (Decimal.nzhead d); auto; contradiction.
Qed.

(** A number below [10 ^ k] has at most [k] digits. *)
Lemma length_str_N (n : N) (k : nat) :
  (0 < k)%nat -> Z.of_N n < 10 ^ Z.of_nat k -> (String.length (str_N n) <= k)%nat.
Proof.
  intros Hk Hn. unfold str_N.
  pose proof (uint_val_to_uint n) as Hv.
  pose proof (DecimalN.Unsigned.to_of (N.to_uint n)) as Hnorm.
  rewrite DecimalN.Unsigned.of_to in Hnorm.
  destruct (unorm_head (N.to_uint n)) as [Hz | Hh].
  - rewrite Hnorm, Hz. cbn. lia.
  - rewrite <- Hnorm in Hh.
    destruct (N.to_uint n) as [| d | d | d | d | d | d | d | d | d | d];
      try contradiction;
      cbn [uint_val] in Hv; cbn [NilEmpty.string_of_uint String.length];
      match type of Hv with
      | uint_val _ ?a = _ =>
          pose proof (uint_val_lower d a ltac:(lia)) as Hlow
      end;
      rewrite Hv in Hlow;
      assert (Hpow : 10 ^ Z.of_nat (String.length (NilEmpty.string_of_uint d))
                     < 10 ^ Z.of_nat k) by lia;
      apply Z.pow_lt_mono_r_iff in Hpow; lia.
Qed.

(** X2.  The rendered identifier is never shorter than six characters,
    and it is exactly six for every identifier from 0 to 999999 and from
    -99999 to -1: the zero-padded form the URL expects. *)
Theorem rendered_identifier_width (z : Z) :
  (6 <= String.length (format06 z))%nat /\
  (-100000 < z < 1000000 -> String.length (format06 z) = 6%nat).
Proof.
  unfold format06. destruct (Z.ltb_spec z 0) as [Hneg | Hpos];
    cbn [String.length]; rewrite length_zfill.
  - split; [lia |]. intro Hz.
    assert (String.length (str_N (Z.abs_N z)) <= 5)%nat
      by (apply length_str_N; [lia | rewrite N2Z.inj_abs_N; lia]).
    lia.
  - split; [lia |]. intro Hz.
    assert (String.length (str_N (Z.abs_N z)) <= 6)%nat
      by (apply length_str_N; [lia | rewrite N2Z.inj_abs_N; lia]).
    lia.
Qed.

Lemma rendered_identifier_width_witness : String.length (format06 42) = 6%nat.
Proof. apply (rendered_identifier_width 42). lia. Defined.

(** ** Identifiers within the limit on digits *)







(** ** [download_asset] *)

Ltac run_download :=
  unfold download_asset, download_asset_body, try_except, exists_, get, write,
    next_tick, lift, bind, ret, raise;
  cbn [tick written result].

(** X7.  [download_asset] never raises and never touches the result of
    the worker.  It returns the URL it was given or the local path
    [assets/<save name>].  It leaves the files alone, or it makes one file,
    at the place of that name under [ASSETS_DIR] and for a response with
    status 200: the body of the response, or, when the write failed after
    the file was opened, incomplete remains, and then the URL is what it
    returns. *)
Theorem download_asset_is_best_effort w a url s :
  exists local_path,
    fst (download_asset w a url s) = Ok local_path /\
    result (snd (download_asset w a url s)) = result s /\
    (local_path = url \/
     exists path, urlparse_path w url = Ok path /\
                  local_path = ("assets/" ++ save_name_of w url path)%string) /\
    (written (snd (download_asset w a url s)) = written s \/
     exists path response,
       urlparse_path w url = Ok path /\
       session_get w a (S (tick s)) url = Ok response /\
       status_code response = 200 /\
       (written (snd (download_asset w a url s)) =
        written s ++ [(path_join ASSETS_DIR (save_name_of w url path),
                       Bytes (content response))]
        \/
        (written (snd (download_asset w a url s)) =
         written s ++ [(path_join ASSETS_DIR (save_name_of w url path), Partial)]
         /\ local_path = url))).
Proof.
  run_download.
  destruct (urlparse_path w url) as [path | e] eqn:Hpath;
    [| exists url; cbn; auto].
  destruct (path_exists w a (tick s) _); cbn [negb tick written result].
  { eexists. cbn. repeat split; eauto. }
  destruct (session_get w a (S (tick s)) url) as [response | e] eqn:Hget;
    [| exists url; cbn; auto].
  destruct (Z.eqb_spec (status_code response) 200) as [E | NE];
    cbn [tick written result].
  - destruct (file_write w a (S (S (tick s))) _) as [| e | e].
    + eexists. cbn. repeat split; eauto.
      right. exists path, response. repeat split; auto.
    + exists url. cbn. auto.
    + exists url. cbn. repeat split; auto.
      right. exists path, response. repeat split; auto.
  - eexists. cbn. repeat split; eauto.
Qed.

(** X8.  An asset whose file is already there is not requested again:
    one [os.path.exists] test is the only effect, nothing is written, and
    the local path is returned. *)
Theorem download_asset_skips_known_asset w a url s path :
  urlparse_path w url = Ok path ->
  path_exists w a (tick s) (path_join ASSETS_DIR (save_name_of w url path)) = true ->
  download_asset w a url s =
  (Ok ("assets/" ++ save_name_of w url path)%string,
   mkT (S (tick s)) (written s) (result s)).
Proof.
  intros Hpath Hex. run_download. rewrite Hpath. cbn [tick written result].
  now rewrite Hex.
Qed.

Lemma download_asset_skips_known_asset_witness :
  download_asset w_first_served (1%nat, 0%nat) logo_url (initial_tstate "000001") =
  (Ok ("assets/" ++ save_name_of w_first_served logo_url "/img/logo.png")%string,
   mkT 1 [] (mkResult "000001" "Not Found" 0)).
Proof.
  apply (download_asset_skips_known_asset w_first_served (1%nat, 0%nat) logo_url
           (initial_tstate "000001") "/img/logo.png"); reflexivity.
Defined.

(** X9.  An asset that is not there yet and is served with status 200 is
    saved once: the body of the response is written under [ASSETS_DIR]
    at the save name, after one test, one request and one write, and the
    local path is returned. *)
Theorem download_asset_saves_served_asset w a url s path response :
  urlparse_path w url = Ok path ->
  path_exists w a (tick s) (path_join ASSETS_DIR (save_name_of w url path)) = false ->
  session_get w a (S (tick s)) url = Ok response ->
  status_code response = 200 ->
  file_write w a (S (S (tick s))) (path_join ASSETS_DIR (save_name_of w url path))
    = Written ->
  download_asset w a url s =
  (Ok ("assets/" ++ save_name_of w url path)%string,
   mkT (S (S (S (tick s))))
       (written s ++ [(path_join ASSETS_DIR (save_name_of w url path),
                       Bytes (content response))])
       (result s)).
Proof.
  intros Hpath Hex Hget Hst Hw. run_download. rewrite Hpath.
  cbn [tick written result]. rewrite Hex. cbn [negb tick written result].
  rewrite Hget, Hst. cbn [Z.eqb Pos.eqb tick written result].
  now rewrite Hw.
Qed.

Lemma download_asset_saves_served_asset_witness :
  download_asset w_e2e (1%nat, 0%nat) logo_url (initial_tstate "000001") =
  (Ok ("assets/" ++ save_name_of w_e2e logo_url "/img/logo.png")%string,
   mkT 3
       [(path_join ASSETS_DIR (save_name_of w_e2e logo_url "/img/logo.png"),
         Bytes "asset")]
       (mkResult "000001" "Not Found" 0)).
Proof.
  apply (download_asset_saves_served_asset w_e2e (1%nat, 0%nat) logo_url
           (initial_tstate "000001") "/img/logo.png"
           (mkResponse 200 [] "asset")); reflexivity.
Defined.

(** X10.  Whatever raises inside [download_asset], the original URL is
    returned.  When [urlparse], the request or [open] raised, no file is
    made; when the write raised after the file was opened, an incomplete
    file is left at the save name under [ASSETS_DIR]. *)
Theorem download_asset_exception_keeps_url w a url s e :
  fst (download_asset_body w a url s) = Raise e ->
  fst (download_asset w a url s) = Ok url /\
  ((urlparse_path w url = Raise e /\
    written (snd (download_asset w a url s)) = written s) \/
   (session_get w a (S (tick s)) url = Raise e /\
    written (snd (download_asset w a url s)) = written s) \/
   (exists path,
      urlparse_path w url = Ok path /\
      file_write w a (S (S (tick s)))
        (path_join ASSETS_DIR (save_name_of w url path)) = NotOpened e /\
      written (snd (download_asset w a url s)) = written s) \/
   (exists path,
      urlparse_path w url = Ok path /\
      file_write w a (S (S (tick s)))
        (path_join ASSETS_DIR (save_name_of w url path)) = Truncated e /\
      written (snd (download_asset w a url s)) =
      written s ++ [(path_join ASSETS_DIR (save_name_of w url path), Partial)])).
Proof.
  run_download.
  destruct (urlparse_path w url) as [path | e'] eqn:Hpath; cbn;
    [| intro H; inversion H; auto].
  destruct (path_exists w a (tick s) _); cbn [negb tick written result];
    [cbn; discriminate |].
  destruct (session_get w a (S (tick s)) url) as [response | e'] eqn:Hget; cbn;
    [| intro H; inversion H; auto].
  destruct (status_code response =? 200); cbn [tick written result];
    [| cbn; discriminate].
  destruct (file_write w a (S (S (tick s))) _) as [| e' | e'] eqn:Hw; cbn;
    [discriminate | |]; intro H; inversion H; subst; split; auto.
  - right. right. left. exists path. auto.
  - right. right. right. exists path. auto.
Qed.

Lemma download_asset_exception_keeps_url_witness :
  fst (download_asset w_asset_down (1%nat, 0%nat) logo_url
         (initial_tstate "000001")) = Ok logo_url.
Proof.
  apply (download_asset_exception_keeps_url w_asset_down (1%nat, 0%nat) logo_url
           (initial_tstate "000001") RequestException).
  reflexivity.
Defined.

(** *** Where an asset is kept *)

Lemma contains_char_app (c : ascii) (a b : string) :
  contains_char c (a ++ b) = contains_char c a || contains_char c b.
Proof.
  unfold contains_char. induction a as [| x a IH];
    cbn [append list_ascii_of_string existsb]; [reflexivity |].
  now rewrite IH, orb_assoc.
Qed.

Lemma basename_no_slash (p : string) : contains_char "/" (basename p) = false.
Proof.
  induction p as [| c p IH]; [reflexivity |]. cbn [basename].
  destruct (existsb (Ascii.eqb "/") (list_ascii_of_string p)) eqn:E;
    [exact IH |].
  destruct (Ascii.eqb_spec c "/") as [-> | Hc]; [exact E |].
  unfold contains_char. cbn [list_ascii_of_string existsb]. rewrite E.
  destruct (Ascii.eqb_spec "/" c); [congruence | reflexivity].
Qed.

Lemma split_last_dot_app (s a b : string) :
  split_last_dot s = Some (a, b) -> s = (a ++ b)%string.
Proof.
  revert a b. induction s as [| c s IH]; intros a b H; [discriminate |].
  cbn [split_last_dot] in H.
  destruct (split_last_dot s) as [[a' b'] |].
  - inversion H; subst. cbn. f_equal. now apply IH.
  - destruct (Ascii.eqb c "."); inversion H; subst. reflexivity.
Qed.

Lemma splitext_no_slash (filename : string) :
  contains_char "/" filename = false ->
  contains_char "/" (fst (splitext filename)) = false /\
  contains_char "/" (snd (splitext filename)) = false.
Proof.
  intro H. unfold splitext.
  destruct (split_last_dot filename) as [[stem ext] |] eqn:E; [| now split].
  destruct (forallb _ _); [now split |].
  apply split_last_dot_app in E. subst filename.
  rewrite contains_char_app in H. now apply orb_false_iff in H.
Qed.

Lemma before_char_no_slash (sep : ascii) (s : string) :
  contains_char "/" s = false -> contains_char "/" (before_char sep s) = false.
Proof.
  unfold contains_char. induction s as [| c s IH]; intro H; [reflexivity |].
  cbn [list_ascii_of_string existsb] in H.
  apply orb_false_iff in H as [Hc Hs]. cbn [before_char].
  destruct (Ascii.eqb c sep); [reflexivity |].
  cbn [list_ascii_of_string existsb]. now rewrite Hc, IH.
Qed.

Lemma path_join_assets (name : string) :
  contains_char "/" name = false ->
  path_join ASSETS_DIR name = ("html_responses/assets/" ++ name)%string.
Proof.
  destruct name as [| c name]; [reflexivity |].
  unfold contains_char. cbn [list_ascii_of_string existsb]. intro H.
  apply orb_false_iff in H as [Hc _].
  destruct c as [[|] [|] [|] [|] [|] [|] [|] [|]];
    try discriminate Hc; reflexivity.
Qed.

(** X11.  The name under which an asset is kept contains no [/], whatever
    the path of its URL, so the file lands directly in
    [html_responses/assets] and nowhere else; this needs the digest to be
    free of [/], as hexadecimal digits are. *)
Theorem asset_stays_in_assets_dir w url path :
  contains_char "/" (md5_hex8 w url) = false ->
  contains_char "/" (save_name_of w url path) = false /\
  path_join ASSETS_DIR (save_name_of w url path) =
  ("html_responses/assets/" ++ save_name_of w url path)%string.
Proof.
  intro Hhash.
  assert (Hname : contains_char "/" (save_name_of w url path) = false).
  { unfold save_name_of.
    set (filename := if String.eqb (basename path) "" then "index.html"%string
                     else basename path).
    assert (Hf : contains_char "/" filename = false).
    { unfold filename. destruct (String.eqb (basename path) "");
        [reflexivity | apply basename_no_slash]. }
    destruct (splitext_no_slash filename Hf) as [Hn He].
    destruct (splitext filename) as [name ext]. cbn [fst snd] in Hn, He.
    rewrite !contains_char_app, Hn, Hhash. cbn [orb].
    destruct (contains_char "?" ext); [| exact He].
    now apply before_char_no_slash. }
  split; [exact Hname | now apply path_join_assets].
Qed.

Lemma asset_stays_in_assets_dir_witness :
  path_join ASSETS_DIR (save_name_of w_e2e "https://cdn.example/a/../../etc/x.png?v=2"
                                     "/a/../../etc/x.png") =
  "html_responses/assets/x_0a1b2c3d.png"%string.
Proof.
  apply (asset_stays_in_assets_dir w_e2e "https://cdn.example/a/../../etc/x.png?v=2"
           "/a/../../etc/x.png").
  reflexivity.
Defined.

(** ** [process_activation_id] *)

Lemma process_state w a i :
  snd (process_activation_id w a i) =
  match fetch_body w a (format06 i) (activation_url (format06 i))
                   (initial_tstate (format06 i)) with
  | (Ok _, s) => s
  | (Raise _, s) =>
      mkT (tick s) (written s) (mkResult (r_id (result s)) "Error" 0)
  end.
Proof.
  unfold process_activation_id, bind, try_except, fetch_handler, get_result,
    set_status, set_secret_code, bind.
  destruct (fetch_body w a _ _ _) as [[u | e] s]; reflexivity.
Qed.

(** X12.  When the page request is answered with a status other than 200
    or raises, that request is the only thing the worker does: no asset is
    requested and no file is written.  The outcome carries the status
    received with the payload ["Not Found"], or status 0 with ["Error"]
    when the request raised. *)
Theorem only_status_200_is_processed w a i :
  (forall response,
     session_get w a 0 (activation_url (format06 i)) = Ok response ->
     status_code response <> 200 ->
     process_activation_id w a i =
     (Ok (mkResult (format06 i) "Not Found" (status_code response)),
      mkT 1 [] (mkResult (format06 i) "Not Found" (status_code response)))) /\
  (forall e,
     session_get w a 0 (activation_url (format06 i)) = Raise e ->
     process_activation_id w a i =
     (Ok (mkResult (format06 i) "Error" 0),
      mkT 1 [] (mkResult (format06 i) "Error" 0))).
Proof.
  split.
  - intros response Hget Hst.
    rewrite process_activation_id_returns, process_state, outcome_of_cases.
    rewrite fetch_body_run, Hget.
    destruct (Z.eqb_spec (status_code response) 200); [contradiction |].
    reflexivity.
  - intros e Hget.
    rewrite process_activation_id_returns, process_state, outcome_of_cases.
    rewrite fetch_body_run, Hget. reflexivity.
Qed.

Lemma only_status_200_is_processed_witness :
  process_activation_id w_e2e (1%nat, 1%nat) 2 =
    (Ok (mkResult "000002" "Not Found" 404),
     mkT 1 [] (mkResult "000002" "Not Found" 404)) /\
  process_activation_id w_down (1%nat, 0%nat) 2 =
    (Ok (mkResult "000002" "Error" 0), mkT 1 [] (mkResult "000002" "Error" 0)).
Proof.
  split.
  - apply (proj1 (only_status_200_is_processed w_e2e (1%nat, 1%nat) 2)
             (mkResponse 404 [] "")); [reflexivity | discriminate].
  - apply (proj2 (only_status_200_is_processed w_down (1%nat, 0%nat) 2)
             RequestException). reflexivity.
Defined.

(** X13.  A worker writes files only for a page that answered 200 and
    holds an instruction card: in every other case nothing is saved. *)
Theorem files_only_for_instruction_cards w a i :
  written (snd (process_activation_id w a i)) <> [] ->
  exists response target_content,
    session_get w a 0 (activation_url (format06 i)) = Ok response /\
    status_code response = 200 /\
    find is_instruction_card (text response) = Some target_content.
Proof.
  rewrite process_state, fetch_body_run.
  destruct (session_get w a 0 _) as [response | e] eqn:Hget;
    [| cbn; congruence].
  destruct (Z.eqb_spec (status_code response) 200) as [E | NE];
    [| cbn; congruence].
  unfold save_instruction_card.
  destruct (find is_instruction_card (text response)) as [t |] eqn:Hcard;
    [| cbn; congruence].
  intros _. exists response, t. auto.
Qed.

Lemma files_only_for_instruction_cards_witness :
  exists response target_content,
    session_get w_e2e (1%nat, 0%nat) 0 (activation_url (format06 1)) = Ok response /\
    status_code response = 200 /\
    find is_instruction_card (text response) = Some target_content.
Proof.
  apply (files_only_for_instruction_cards w_e2e (1%nat, 0%nat) 1).
  vm_compute. discriminate.
Defined.

Lemma path_join_html (name : string) :
  contains_char "/" name = false ->
  path_join HTML_DIR name = ("html_responses/" ++ name)%string.
Proof.
  destruct name as [| c name]; [reflexivity |].
  unfold contains_char. cbn [list_ascii_of_string existsb]. intro H.
  apply orb_false_iff in H as [Hc _].
  destruct c as [[|] [|] [|] [|] [|] [|] [|] [|]];
    try discriminate Hc; reflexivity.
Qed.

Lemma uint_no_slash (d : Decimal.uint) :
  contains_char "/" (NilEmpty.string_of_uint d) = false.
Proof. induction d; [reflexivity | exact IHd ..]. Qed.

Lemma zeros_no_slash (k : nat) : contains_char "/" (zeros k) = false.
Proof. induction k; [reflexivity | exact IHk]. Qed.

Lemma format06_no_slash (z : Z) : contains_char "/" (format06 z) = false.
Proof.
  unfold format06, zfill, str_N.
  destruct (z <? 0);
    [change (contains_char "/" (String "-" ?s)) with (contains_char "/" s) |];
    now rewrite contains_char_app, zeros_no_slash, uint_no_slash.
Qed.

(** *** What the passes over the document write *)

Import Writes.

Lemma appends_ret w {A} (x : A) : appends_assets w (ret x).
Proof. intro s. exists []. cbn. now rewrite app_nil_r. Qed.

Lemma appends_raise w {A} (e : exn) : appends_assets w (@raise A e).
Proof. intro s. exists []. cbn. now rewrite app_nil_r. Qed.

Lemma appends_lift w {A} (r : res A) : appends_assets w (lift r).
Proof. intro s. exists []. cbn. now rewrite app_nil_r. Qed.

Lemma appends_bind w {A B} (m : M A) (f : A -> M B) :
  appends_assets w m -> (forall x, appends_assets w (f x)) ->
  appends_assets w (bind m f).
Proof.
  intros Hm Hf s. unfold bind. destruct (Hm s) as (l1 & H1 & F1).
  destruct (m s) as [[x | e] s1]; cbn [snd] in *; [| now exists l1].
  destruct (Hf x s1) as (l2 & H2 & F2). exists (l1 ++ l2).
  rewrite H2, H1, app_assoc. split; [reflexivity | now apply Forall_app].
Qed.

Lemma appends_download_asset w a url : appends_assets w (download_asset w a url).
Proof.
  intro s. run_download.
  destruct (urlparse_path w url) as [path | e] eqn:Hpath;
    [| exists []; cbn; now rewrite app_nil_r].
  destruct (path_exists w a (tick s) _); cbn [negb tick written result];
    [exists []; cbn; now rewrite app_nil_r |].
  destruct (session_get w a (S (tick s)) url) as [response | e];
    [| exists []; cbn; now rewrite app_nil_r].
  destruct (status_code response =? 200); cbn [tick written result];
    [| exists []; cbn; now rewrite app_nil_r].
  destruct (file_write w a (S (S (tick s))) _) as [| e | e]; cbn.
  - eexists. split; [reflexivity |]. repeat constructor.
    exists url, path. cbn. eauto.
  - exists []. now rewrite app_nil_r.
  - eexists. split; [reflexivity |]. repeat constructor.
    exists url, path. cbn. eauto.
Qed.

Create HintDb appends.

#[local] Hint Resolve appends_ret appends_raise appends_lift appends_bind
  appends_download_asset : appends.

Lemma appends_for_each_tag w f :
  (forall nm attrs, appends_assets w (f nm attrs)) ->
  forall n, appends_assets w (for_each_tag f n).
Proof.
  intro Hf. induction n as [nm attrs cs IH | t | t] using node_forall_ind;
    cbn [for_each_tag]; [| auto with appends ..].
  apply appends_bind; [apply Hf |]. intro attrs'.
  apply appends_bind; [| auto with appends].
  induction IH as [| c cs Hc _ IHcs]; [auto with appends |].
  apply appends_bind; [exact Hc |]. intro c'.
  apply appends_bind; [exact IHcs | auto with appends].
Qed.

Lemma appends_for_each_tag_in w f :
  (forall nm attrs, appends_assets w (f nm attrs)) ->
  forall doc, appends_assets w (for_each_tag_in f doc).
Proof.
  intros Hf doc. induction doc as [| n doc IH]; cbn [for_each_tag_in];
    [auto with appends |].
  apply appends_bind; [now apply appends_for_each_tag |]. intro n'.
  apply appends_bind; [exact IH | auto with appends].
Qed.

Lemma appends_localize_link w a url nm attrs :
  appends_assets w (localize_link w a url nm attrs).
Proof.
  unfold localize_link.
  destruct (String.eqb nm "link"); [| auto with appends].
  destruct (attr_get attrs "href"); [| auto with appends].
  destruct (rel_is_stylesheet attrs); auto 6 with appends.
Qed.

Lemma appends_localize_img w a url nm attrs :
  appends_assets w (localize_img w a url nm attrs).
Proof.
  unfold localize_img.
  destruct (String.eqb nm "img"); [| auto with appends].
  destruct (attr_get attrs "src"); auto 6 with appends.
Qed.

Lemma appends_absolutize_anchor w url nm attrs :
  appends_assets w (absolutize_anchor w url nm attrs).
Proof.
  unfold absolutize_anchor.
  destruct (String.eqb nm "a"); [| auto with appends].
  destruct (attr_get attrs "href"); auto 6 with appends.
Qed.

(** The three passes of source lines 126-138, one after the other. *)
Lemma appends_passes w a url doc :
  appends_assets w
    (bind (for_each_tag_in (localize_link w a url) doc)
       (fun d1 => bind (for_each_tag_in (localize_img w a url) d1)
          (fun d2 => for_each_tag_in (absolutize_anchor w url) d2))).
Proof.
  apply appends_bind;
    [apply appends_for_each_tag_in, appends_localize_link |]. intro d1.
  apply appends_bind;
    [apply appends_for_each_tag_in, appends_localize_img |]. intro d2.
  apply appends_for_each_tag_in, appends_absolutize_anchor.
Qed.

(** X14.  When the page answered 200, holds an instruction card, and no
    exception leaves the [try] block, the last file the worker writes is
    the document of the identifier, [html_responses/<id>.html] with the
    identifier zero-padded; every file written before it is an asset:
    it sits at the save name of some URL under [ASSETS_DIR] and holds
    bytes or the remains of a failed write. *)
Theorem document_is_saved_last w a i response target_content :
  session_get w a 0 (activation_url (format06 i)) = Ok response ->
  status_code response = 200 ->
  find is_instruction_card (text response) = Some target_content ->
  fetch_raises w a i = false ->
  exists assets doc,
    written (snd (process_activation_id w a i)) =
    assets ++ [(("html_responses/" ++ format06 i ++ ".html")%string, Html doc)] /\
    Forall (asset_entry w) assets.
Proof.
  intros Hget Hst Hcard Hok.
  rewrite process_state. unfold fetch_raises in Hok.
  rewrite fetch_body_run, Hget, Hst in *. cbn [Z.eqb Pos.eqb] in *.
  unfold save_instruction_card in *. rewrite Hcard in *.
  assert (Hpath : path_join HTML_DIR (format06 i ++ ".html") =
                  ("html_responses/" ++ format06 i ++ ".html")%string).
  { apply path_join_html. now rewrite contains_char_app, format06_no_slash. }
  rewrite Hpath in *. clear Hpath.
  match type of Hok with
  | context [bind ?p1 _ ?s0] =>
      destruct (appends_passes w a (activation_url (format06 i))
                  (new_document (find_all is_css_link (text response))
                                target_content) s0) as (l & Hl & Fl)
  end.
  unfold bind in *.
  destruct (for_each_tag_in (localize_link w a _) _ _) as [[d1 | e1] s1];
    [| discriminate].
  destruct (for_each_tag_in (localize_img w a _) d1 s1) as [[d2 | e2] s2];
    [| discriminate].
  destruct (for_each_tag_in (absolutize_anchor w _) d2 s2) as [[d3 | e3] s3];
    [| discriminate].
  cbn [snd written] in Hl.
  unfold write, bind, next_tick, raise in *. cbn [tick written result] in *.
  destruct (file_write w a (tick s3) _); [| discriminate ..].
  exists l, d3. cbn [snd written]. rewrite Hl. split; [reflexivity | exact Fl].
Qed.

Lemma document_is_saved_last_witness :
  exists assets doc,
    written (snd (process_activation_id w_e2e (1%nat, 0%nat) 1)) =
    assets ++ [(("html_responses/" ++ format06 1 ++ ".html")%string, Html doc)] /\
    Forall (asset_entry w_e2e) assets.
Proof.
  apply (document_is_saved_last w_e2e (1%nat, 0%nat) 1
           (mkResponse 200 (page_with "ABC123") "")
           (Tag "div" [("class", "card instruction-card")]%string
              [Tag "link" [("rel", "stylesheet"); ("href", "/css/app.css")]%string [];
               Tag "img" [("src", "/img/logo.png")]%string [];
               Tag "a" [("href", "/deals")]%string [NavigableString "All deals"]]));
    reflexivity.
Defined.

(** ** Rounds and the run *)

Import Rounds.

Lemma filter_none {A} (p : A -> bool) (l : list A) :
  (forall x, In x l -> p x = false) -> filter p l = [].
Proof.
  induction l as [| x l IH]; intro H; [reflexivity |].
  cbn [filter]. rewrite (H x (or_introl eq_refl)).
  apply IH. intros y Hy. apply H. now right.
Qed.

Lemma some_perm (l l' : list Z) :
  Permutation (map Some l) (map Some l') -> Permutation l l'.
Proof.
  intro Hp.
  apply (Permutation_map (fun o => match o with Some z => z | None => 0 end)) in Hp.
  now rewrite !map_map, !map_id in Hp.
Qed.

(** The identifiers of a round, by what became of them. *)
Lemma round_ids_split w iteration ids :
  Permutation
    (map id_of (filter settled (round_outcomes w iteration ids))
     ++ retry_ids (run_round w iteration ids))
    ids.
Proof.
  pose proof (round_partition w iteration ids) as H. cbn zeta in H.
  rewrite <- (round_ids_back w iteration ids) in H by apply incl_filter.
  rewrite <- map_app in H.
  apply (Permutation_map int_of_str) in H. rewrite !map_map in H.
  rewrite !(map_ext (fun x => int_of_str (format06 x)) Some) in H
    by (intro; apply int_of_str_format06).
  now apply some_perm.
Qed.

Lemma submit_all_slots w iteration ids k :
  Forall (fun f => (k <= slot f < k + List.length ids)%nat)
         (submit_all w iteration k ids).
Proof.
  revert k. induction ids as [| i ids IH]; intro k; cbn [submit_all];
    constructor.
  - rewrite submit_eq. cbn. lia.
  - eapply Forall_impl; [| apply IH]. cbn. intros f H. lia.
Qed.

(** The outcomes of a round are those of its attempts: one of the slots
    of the round, on one of its identifiers. *)
Lemma round_outcomes_slots w iteration ids d :
  In d (round_outcomes w iteration ids) ->
  exists k i,
    In i ids /\ (k < List.length ids)%nat /\ d = outcome_of w (iteration, k) i.
Proof.
  unfold round_outcomes. rewrite in_map_iff. intros (f & <- & Hf).
  pose proof (completed_futures w iteration ids) as H.
  rewrite Forall_forall in H. destruct (H f Hf) as (i & Hi & _ & Hr).
  pose proof (submit_all_slots w iteration ids 0) as Hs.
  rewrite Forall_forall in Hs.
  apply (Permutation_in _ (completed_perm w iteration ids)) in Hf.
  specialize (Hs f Hf). exists (slot f), i. repeat split; auto. lia.
Qed.

Lemma settling_round_queues_nothing w n ids0 ids :
  settles_all w n ids0 ->
  incl ids ids0 -> (List.length ids <= List.length ids0)%nat ->
  retry_ids (run_round w n ids) = [].
Proof.
  intros Hall Hincl Hlen. rewrite run_round_spec. cbn [retry_ids].
  rewrite filter_none; [reflexivity |].
  intros d Hd.
  destruct (round_outcomes_slots w n ids d Hd) as (k & i & Hi & Hk & ->).
  unfold transient, settled. rewrite Hall; [reflexivity | auto | lia].
Qed.

Lemma retry_ids_length w iteration ids :
  (List.length (retry_ids (run_round w iteration ids)) <= List.length ids)%nat.
Proof.
  pose proof (round_ids_split w iteration ids) as Hperm.
  apply Permutation_length in Hperm. rewrite length_app in Hperm. lia.
Qed.

Lemma retry_loop_ends w n ids0 :
  settles_all w n ids0 ->
  forall m iteration fuel ids fs,
    (iteration + m = n)%nat -> (m < fuel)%nat ->
    incl ids ids0 -> (List.length ids <= List.length ids0)%nat ->
    exists fs', retry_loop fuel w iteration ids fs = Returned fs'.
Proof.
  intro Hall.
  induction m as [| m IH]; intros iteration fuel ids fs Hn Hfuel Hincl Hlen;
    (destruct ids as [| i0 ids1]; [exists fs; now destruct fuel |]);
    (destruct fuel as [| fuel]; [lia |]);
    rewrite retry_loop_step by discriminate; cbn zeta.
  - replace iteration with n by lia.
    rewrite (settling_round_queues_nothing w n ids0) by assumption. eauto.
  - destruct (retry_ids (run_round w iteration (i0 :: ids1))) eqn:E; [eauto |].
    rewrite <- E. apply IH; try lia.
    + intros x Hx. apply Hincl. now apply (retry_ids_incl w iteration).
    + pose proof (retry_ids_length w iteration (i0 :: ids1)). lia.
Qed.

(** X15.  When every attempt that round [n] can make on an identifier of
    the input gets status 200 or 404, [n] rounds are enough: [main]
    returns, and the rows it has added to the output file are, by their
    identifiers, exactly the input: one row for each entry. *)
Theorem run_ends_when_a_round_settles_all w n fuel fs ids :
  (1 <= n)%nat ->
  (forall k i,
     In i ids -> (k < List.length ids)%nat ->
     is_settled (r_status (outcome_of w (n, k) i)) = true) ->
  (n <= fuel)%nat ->
  get_ids_from_csv (input_csv fs) = Ok ids ->
  exists fs' recs,
    main fuel w fs = Returned fs' /\
    output_csv fs' =
      Some (match output_csv fs with Some old => old | None => [header_row] end
            ++ map row_of recs) /\
    Permutation (map r_id recs) (map format06 ids).
Proof.
  intros Hn Hall Hfuel Hids.
  destruct (main_spec w fuel fs ids Hids)
    as (recs & rest & _ & Hcsv & _ & Hperm & Hdone).
  assert (Hret : exists fs', main fuel w fs = Returned fs').
  { unfold main. rewrite Hids.
    destruct (retry_loop_ends w n ids Hall (n - 1) 1%nat fuel ids (init_output fs))
      as (fs' & ->); [lia | lia | apply incl_refl | lia |].
    eauto. }
  destruct Hret as (fs' & Hret). rewrite Hret in *. cbn in Hcsv, Hdone.
  rewrite (Hdone eq_refl), app_nil_r in Hperm.
  exists fs', recs. auto.
Qed.

Lemma run_ends_when_a_round_settles_all_witness :
  exists fs' recs,
    main 1 w_e2e (fs_with [["Activation ID"]; ["1"]; ["2"]])%string = Returned fs' /\
    output_csv fs' = Some ([header_row] ++ map row_of recs) /\
    Permutation (map r_id recs) (map format06 [1; 2]).
Proof.
  apply (run_ends_when_a_round_settles_all w_e2e 1 1
           (fs_with [["Activation ID"]; ["1"]; ["2"]])%string [1; 2]).
  - lia.
  - intros k i [<- | [<- | []]] Hk;
      (destruct k as [| [| k]]; [reflexivity | reflexivity | cbn in Hk; lia]).
  - lia.
  - reflexivity.
Defined.

(** X16.  The list carried into the next round holds only identifiers of
    this round, no more of them than this round had and none more often;
    each got a status other than 200 and 404 on an attempt of this round;
    and distinct identifiers stay distinct. *)
Theorem retry_list_comes_from_the_round w iteration ids :
  let retry := retry_ids (run_round w iteration ids) in
  incl retry ids /\
  (List.length retry <= List.length ids)%nat /\
  (forall i, (count_occ Z.eq_dec retry i <= count_occ Z.eq_dec ids i)%nat) /\
  (forall i, In i retry ->
     exists k, is_settled (r_status (outcome_of w (iteration, k) i)) = false) /\
  (NoDup ids -> NoDup retry).
Proof.
  cbn zeta. pose proof (round_ids_split w iteration ids) as Hperm.
  repeat split.
  - apply retry_ids_incl.
  - apply Permutation_length in Hperm. rewrite length_app in Hperm. lia.
  - intro i.
    rewrite <- (proj1 (Permutation_count_occ Z.eq_dec _ _) Hperm i).
    rewrite count_occ_app. lia.
  - intros i Hi. rewrite run_round_spec in Hi. cbn [retry_ids] in Hi.
    apply in_map_iff in Hi as (d & <- & Hd).
    apply filter_In in Hd as [Hd Ht].
    destruct (round_outcomes_attempts w iteration ids d Hd) as (k & j & _ & ->).
    exists k. rewrite id_of_outcome.
    unfold transient, settled in Ht. now destruct (is_settled _).
  - intro Hnd. apply (Permutation_NoDup (Permutation_sym Hperm)) in Hnd.
    now apply NoDup_app_remove_l in Hnd.
Qed.

Lemma retry_list_comes_from_the_round_witness :
  NoDup (retry_ids (run_round w_e2e 1 [1; 2; 3])).
Proof.
  apply (retry_list_comes_from_the_round w_e2e 1 [1; 2; 3]). exact NoDup_123.
Defined.

(** X19.  At every moment of a run, finished or not, with or without
    repeated identifiers in the input, the rows the run has added are
    rows of outcomes with status 200 or 404, and no identifier has more
    rows than it has entries in the input. *)
Theorem rows_never_exceed_the_input w fuel fs ids :
  get_ids_from_csv (input_csv fs) = Ok ids ->
  exists recs,
    output_csv (fs_of (main fuel w fs)) =
      Some (match output_csv fs with Some old => old | None => [header_row] end
            ++ map row_of recs) /\
    Forall (fun d => r_status d = 200 \/ r_status d = 404) recs /\
    (List.length recs <= List.length ids)%nat /\
    (forall i,
       (count_occ string_dec (map r_id recs) (format06 i)
        <= count_occ Z.eq_dec ids i)%nat).
Proof.
  intro Hids.
  destruct (main_spec w fuel fs ids Hids)
    as (recs & rest & _ & Hcsv & Hrec & Hperm & _).
  exists recs. repeat split.
  - exact Hcsv.
  - eapply Forall_impl; [| exact Hrec]. intros d [Hs _]. now apply is_settled_iff.
  - apply Permutation_length in Hperm.
    rewrite length_app, !length_map in Hperm. lia.
  - intro i.
    rewrite (count_occ_map format06 Z.eq_dec string_dec format06_inj i ids).
    rewrite <- (proj1 (Permutation_count_occ string_dec _ _) Hperm (format06 i)).
    rewrite count_occ_app. lia.
Qed.

Lemma rows_never_exceed_the_input_witness :
  exists recs,
    output_csv (fs_of (main 1 w_first_served fs_5_5)) =
      Some ([header_row] ++ map row_of recs) /\
    Forall (fun d => r_status d = 200 \/ r_status d = 404) recs /\
    (List.length recs <= 2)%nat /\
    (forall i,
       (count_occ string_dec (map r_id recs) (format06 i)
        <= count_occ Z.eq_dec [5%Z; 5%Z] i)%nat).
Proof.
  apply (rows_never_exceed_the_input w_first_served 1 fs_5_5 [5; 5]).
  reflexivity.
Defined.

(** ** The document that is saved *)

Lemma prune_has_no_css_link (n : node) :
  is_css_link n = false ->
  filter is_css_link (self_and_descendants (prune is_css_link n)) = [].
Proof.
  induction n as [nm attrs cs IH | s | s] using node_forall_ind; intro Hn;
    [| reflexivity ..].
  cbn [prune self_and_descendants filter].
  change (is_css_link (Tag nm attrs _)) with (is_css_link (Tag nm attrs cs)).
  rewrite Hn. clear Hn.
  induction IH as [| c cs Hc _ IHcs]; [reflexivity |].
  destruct (is_css_link c) eqn:Ec; [exact IHcs |].
  cbn [flat_map]. rewrite filter_app, (Hc eq_refl). exact IHcs.
Qed.

Lemma instruction_card_is_no_link (n : node) :
  is_instruction_card n = true -> is_css_link n = false.
Proof.
  unfold is_instruction_card, is_css_link, is_tag.
  destruct n as [nm attrs cs | s | s]; try discriminate.
  intro H. apply andb_true_iff in H as [Hdiv _].
  apply String.eqb_eq in Hdiv. subst nm. reflexivity.
Qed.

(** X20.  The stylesheet links are moved into the new document, not
    copied: none is left inside the instruction card that goes into the
    body, so the stylesheet links of the saved skeleton are those put
    into its head, each once. *)
Theorem stylesheet_links_are_moved (css_links : list node) (target_content : node) :
  is_instruction_card target_content = true ->
  find_all is_css_link [prune is_css_link target_content] = [] /\
  find_all is_css_link (new_document css_links target_content) =
  find_all is_css_link css_links.
Proof.
  intro Hcard. apply instruction_card_is_no_link in Hcard.
  pose proof (prune_has_no_css_link target_content Hcard) as Hbody.
  split.
  - unfold find_all, descendants. cbn [flat_map]. now rewrite app_nil_r.
  - assert (Hname : forall nm attrs cs,
               String.eqb nm "link" = false ->
               is_css_link (Tag nm attrs cs) = false)
      by (intros nm attrs cs H; unfold is_css_link, is_tag; now rewrite H).
    unfold new_document, find_all, descendants.
    cbn [flat_map self_and_descendants]. rewrite !app_nil_r.
    repeat first
      [ rewrite Hname by reflexivity
      | rewrite filter_app
      | progress change (is_css_link (Doctype "html")) with false
      | progress cbn [filter app] ].
    rewrite Hbody. apply app_nil_r.
Qed.

Lemma stylesheet_links_are_moved_witness :
  find_all is_css_link
    [prune is_css_link
       (Tag "div" [("class", "card instruction-card")]%string
          [Tag "link" [("rel", "stylesheet"); ("href", "/css/app.css")]%string [];
           Tag "img" [("src", "/img/logo.png")]%string []])] = [].
Proof.
  apply (stylesheet_links_are_moved []). reflexivity.
Defined.

(** ** Link targets *)

Import Doc.
Local Open Scope fetch_scope.

(** A pass that leaves the attributes of [a] tags alone keeps the link
    targets of a tree. *)
Lemma pass_keeps_anchors
    (f : string -> list (string * string) -> M (list (string * string))) :
  (forall attrs s attrs' s', f "a"%string attrs s = (Ok attrs', s') -> attrs' = attrs) ->
  forall n s n' s',
    for_each_tag f n s = (Ok n', s') ->
    flat_map anchor_href (self_and_descendants n') =
    flat_map anchor_href (self_and_descendants n).
Proof.
  intro Hf.
  induction n as [nm attrs cs IH | t | t] using node_forall_ind;
    intros s n' s' Hrun;
    [| cbn in Hrun; inversion Hrun; reflexivity ..].
  cbn [for_each_tag] in Hrun. unfold bind at 1 in Hrun.
  destruct (f nm attrs s) as [[attrs' | e] s1] eqn:Hattrs; [| discriminate].
  unfold bind at 1 in Hrun.
  match type of Hrun with
  | context [?g cs s1] => destruct (g cs s1) as [[cs' | e] s2] eqn:Hcs
  end; [| discriminate].
  cbn in Hrun. inversion Hrun; subst n' s'. clear Hrun.
  cbn [self_and_descendants flat_map]. f_equal.
  - cbn [anchor_href]. destruct (String.eqb_spec nm "a") as [-> | _];
      [| reflexivity].
    now rewrite (Hf _ _ _ _ Hattrs).
  - clear Hattrs. revert s1 cs' s2 Hcs.
    induction IH as [| c cs Hc _ IHcs]; intros s1 cs' s2 Hcs.
    + cbn in Hcs. inversion Hcs. reflexivity.
    + unfold bind at 1 in Hcs.
      destruct (for_each_tag f c s1) as [[c' | e] s3] eqn:Hc'; [| discriminate].
      unfold bind at 1 in Hcs.
      match type of Hcs with
      | context [?g cs s3] => destruct (g cs s3) as [[r | e] s4] eqn:Hr
      end; [| discriminate].
      cbn in Hcs. inversion Hcs; subst cs' s2.
      cbn [flat_map]. rewrite !flat_map_app.
      rewrite (Hc _ _ _ Hc'), (IHcs _ _ _ Hr). reflexivity.
Qed.

Lemma pass_keeps_anchor_hrefs
    (f : string -> list (string * string) -> M (list (string * string))) :
  (forall attrs s attrs' s', f "a"%string attrs s = (Ok attrs', s') -> attrs' = attrs) ->
  forall doc s doc' s',
    for_each_tag_in f doc s = (Ok doc', s') ->
    anchor_hrefs doc' = anchor_hrefs doc.
Proof.
  intro Hf. unfold anchor_hrefs, descendants.
  induction doc as [| n doc IH]; intros s doc' s' Hrun.
  - cbn in Hrun. inversion Hrun. reflexivity.
  - cbn [for_each_tag_in] in Hrun. unfold bind at 1 in Hrun.
    destruct (for_each_tag f n s) as [[n' | e] s1] eqn:Hn; [| discriminate].
    unfold bind at 1 in Hrun.
    destruct (for_each_tag_in f doc s1) as [[r | e] s2] eqn:Hr; [| discriminate].
    cbn in Hrun. inversion Hrun; subst doc' s'.
    cbn [flat_map]. rewrite !flat_map_app.
    now rewrite (pass_keeps_anchors f Hf _ _ _ _ Hn), (IH _ _ _ Hr).
Qed.

Lemma localize_link_keeps_anchor w a url attrs s attrs' s' :
  localize_link w a url "a" attrs s = (Ok attrs', s') -> attrs' = attrs.
Proof. cbn. intro H. now inversion H. Qed.

Lemma localize_img_keeps_anchor w a url attrs s attrs' s' :
  localize_img w a url "a" attrs s = (Ok attrs', s') -> attrs' = attrs.
Proof. cbn. intro H. now inversion H. Qed.

(** The pass over the [a] tags raises as soon as one target is refused
    by [urljoin]. *)
Lemma anchor_pass_raises w url h e :
  urljoin w url h = Raise e ->
  forall n s,
    In h (flat_map anchor_href (self_and_descendants n)) ->
    exists e' s', for_each_tag (absolutize_anchor w url) n s = (Raise e', s').
Proof.
  intro Hjoin.
  induction n as [nm attrs cs IH | t | t] using node_forall_ind; intros s Hin;
    [| destruct Hin ..].
  cbn [self_and_descendants flat_map] in Hin. apply in_app_or in Hin.
  cbn [for_each_tag]. unfold bind at 1.
  destruct (absolutize_anchor w url nm attrs s) as [[attrs' | e0] s1] eqn:Hattrs;
    [| eauto].
  destruct Hin as [Hin | Hin].
  { exfalso. unfold absolutize_anchor in Hattrs. cbn [anchor_href] in Hin.
    destruct (String.eqb nm "a"); [| destruct Hin].
    destruct (attr_get attrs "href") as [h0 |]; [| destruct Hin].
    destruct Hin as [-> | []].
    unfold bind, lift in Hattrs. rewrite Hjoin in Hattrs. discriminate. }
  unfold bind at 1.
  assert (Hcs : exists e' s',
            (fix go (l : list node) : M (list node) :=
               match l with
               | [] => ret []
               | c :: l' =>
                   c' <- for_each_tag (absolutize_anchor w url) c;;
                   r <- go l';; ret (c' :: r)
               end) cs s1 = (Raise e', s')).
  { clear Hattrs. revert s1.
    induction IH as [| c cs Hc _ IHcs]; intro s1; [destruct Hin |].
    cbn [flat_map] in Hin. rewrite flat_map_app in Hin. apply in_app_or in Hin.
    unfold bind at 1.
    destruct (for_each_tag (absolutize_anchor w url) c s1)
      as [[c' | e1] s2] eqn:Hc'; [| eauto].
    destruct Hin as [Hin | Hin].
    - destruct (Hc s1 Hin) as (e' & s' & Hr). congruence.
    - unfold bind at 1.
      destruct (IHcs Hin s2) as (e' & s' & ->). eauto. }
  destruct Hcs as (e' & s' & ->). eauto.
Qed.

Lemma anchor_pass_in_raises w url h e :
  urljoin w url h = Raise e ->
  forall doc s,
    In h (anchor_hrefs doc) ->
    exists e' s', for_each_tag_in (absolutize_anchor w url) doc s = (Raise e', s').
Proof.
  intro Hjoin. unfold anchor_hrefs, descendants.
  induction doc as [| n doc IH]; intros s Hin; [destruct Hin |].
  cbn [flat_map] in Hin. rewrite flat_map_app in Hin. apply in_app_or in Hin.
  cbn [for_each_tag_in]. unfold bind at 1.
  destruct (for_each_tag (absolutize_anchor w url) n s) as [[n' | e1] s1] eqn:Hn;
    [| eauto].
  destruct Hin as [Hin | Hin].
  - destruct (anchor_pass_raises w url h e Hjoin n s Hin) as (e' & s' & Hr).
    congruence.
  - unfold bind at 1. destruct (IH s1 Hin) as (e' & s' & ->). eauto.
Qed.

(** X21.  One link target that [urljoin] refuses is enough to lose the
    page: when the page answered 200 and the document built from its
    instruction card holds an [a] tag with such an [href], the [try] block
    is left by an exception and the outcome is status 0 with ["Error"],
    whatever code the page showed; the identifier is queued again. *)
Theorem refused_link_target_fails_the_fetch w a i response target_content h e :
  session_get w a 0 (activation_url (format06 i)) = Ok response ->
  status_code response = 200 ->
  find is_instruction_card (text response) = Some target_content ->
  In h (anchor_hrefs
          (new_document (find_all is_css_link (text response)) target_content)) ->
  urljoin w (activation_url (format06 i)) h = Raise e ->
  fetch_raises w a i = true /\
  outcome_of w a i = mkResult (format06 i) "Error" 0 /\
  is_settled (r_status (outcome_of w a i)) = false.
Proof.
  intros Hget Hst Hcard Hin Hjoin.
  assert (Hraise : fetch_raises w a i = true).
  { unfold fetch_raises. rewrite fetch_body_run, Hget, Hst. cbn [Z.eqb Pos.eqb].
    unfold save_instruction_card. rewrite Hcard. unfold bind at 1.
    destruct (for_each_tag_in (localize_link w a _) _ _) as [[d1 | e1] s1] eqn:H1;
      [| reflexivity].
    apply (pass_keeps_anchor_hrefs _ (localize_link_keeps_anchor w a _)) in H1.
    unfold bind at 1.
    destruct (for_each_tag_in (localize_img w a _) d1 s1) as [[d2 | e2] s2] eqn:H2;
      [| reflexivity].
    apply (pass_keeps_anchor_hrefs _ (localize_img_keeps_anchor w a _)) in H2.
    unfold bind at 1.
    rewrite <- H1, <- H2 in Hin.
    destruct (anchor_pass_in_raises w _ h e Hjoin d2 s2 Hin) as (e' & s' & ->).
    reflexivity. }
  split; [exact Hraise |].
  rewrite outcome_of_cases, Hget, Hst, Hraise. cbn [Z.eqb Pos.eqb].
  split; reflexivity.
Qed.

Lemma refused_link_target_fails_the_fetch_witness :
  outcome_of BadLink.w_bad_link (1%nat, 0%nat) 7 = mkResult (format06 7) "Error" 0.
Proof.
  apply (refused_link_target_fails_the_fetch BadLink.w_bad_link (1%nat, 0%nat) 7
           (mkResponse 200 BadLink.page_with_bad_link "")
           BadLink.card_with_bad_link BadLink.bad_target ValueError).
  - reflexivity.
  - reflexivity.
  - reflexivity.
  - left. reflexivity.
  - reflexivity.
Defined.

(** ** The limit on digits *)

Lemma digit_val_range (c : ascii) : is_digit c = true -> 0 <= digit_val c <= 9.
Proof.
  unfold is_digit, digit_val. intro H.
  apply andb_true_iff in H as [H1 H2].
  apply Nat.leb_le in H1, H2. lia.
Qed.

Lemma int_digits_bound (s : string) :
  forall acc prev v,
    0 <= acc ->
    int_digits s acc prev = Some v ->
    0 <= v < (acc + 1) * 10 ^ Z.of_nat (count_digits s).
Proof.
  unfold count_digits.
  induction s as [| c s IH]; intros acc prev v Hacc H;
    cbn [int_digits list_ascii_of_string filter] in *.
  - destruct prev; inversion H; subst. cbn. lia.
  - destruct (is_digit c) eqn:Ed.
    + pose proof (digit_val_range c Ed) as Hd.
      assert (Hacc' : 0 <= 10 * acc + digit_val c) by lia.
      specialize (IH _ _ _ Hacc' H).
      cbn [List.length]. rewrite Nat2Z.inj_succ, Z.pow_succ_r by lia.
      assert (0 < 10 ^ Z.of_nat (List.length (filter is_digit (list_ascii_of_string s))))
        by (apply Z.pow_pos_nonneg; lia).
      nia.
    + destruct (Ascii.eqb c "_"); [| discriminate].
      destruct prev; [| discriminate]. now apply (IH _ _ _ Hacc H).
Qed.

Lemma count_digits_lstrip (s : string) :
  (count_digits (lstrip s) <= count_digits s)%nat.
Proof.
  unfold count_digits. induction s as [| c s IH]; [apply Nat.le_refl |].
  cbn [lstrip]. destruct (is_int_space c); [| apply Nat.le_refl].
  cbn [list_ascii_of_string filter]. destruct (is_digit c); cbn [List.length]; lia.
Qed.

Lemma count_digits_rstrip (s : string) :
  (count_digits (rstrip s) <= count_digits s)%nat.
Proof.
  unfold count_digits. induction s as [| c s IH]; [apply Nat.le_refl |].
  cbn [rstrip]. destruct (rstrip s) as [| x r].
  - destruct (is_int_space c); cbn [list_ascii_of_string filter] in *;
      destruct (is_digit c); cbn [List.length] in *; lia.
  - cbn [list_ascii_of_string filter] in *.
    destruct (is_digit c); cbn [List.length] in *; lia.
Qed.

Lemma int_digits_below (t : string) (v : Z) (n : nat) :
  (count_digits t <= n)%nat ->
  int_digits t 0 false = Some v -> 0 <= v < 10 ^ Z.of_nat n.
Proof.
  intros Ht Hv.
  pose proof (int_digits_bound t 0 false v (Z.le_refl 0) Hv) as B.
  assert (M : 10 ^ Z.of_nat (count_digits t) <= 10 ^ Z.of_nat n)
    by (apply Z.pow_le_mono_r; lia).
  lia.
Qed.

Lemma int_of_str_below (s : string) (z : Z) (n : nat) :
  (count_digits s <= n)%nat ->
  int_of_str s = Some z -> Z.abs z < 10 ^ Z.of_nat n.
Proof.
  intros Hlim H. unfold int_of_str in H.
  assert (Hstrip : (count_digits (strip s) <= n)%nat).
  { unfold strip. pose proof (count_digits_rstrip (lstrip s)).
    pose proof (count_digits_lstrip s). lia. }
  destruct (strip s) as [| c d]; [discriminate |].
  assert (Hd : (count_digits d <= n)%nat).
  { unfold count_digits in *. cbn [list_ascii_of_string filter] in Hstrip.
    destruct (is_digit c); cbn [List.length] in Hstrip; lia. }
  destruct (Ascii.eqb c "-").
  - destruct (int_digits d 0 false) as [v |] eqn:E; [| discriminate].
    inversion H; subst. pose proof (int_digits_below d v n Hd E). lia.
  - destruct (Ascii.eqb c "+").
    + pose proof (int_digits_below d z n Hd H). lia.
    + pose proof (int_digits_below (String c d) z n Hstrip H). lia.
Qed.

Lemma int_limited_bound (s : string) (z : Z) :
  int_limited s = Some z -> Z.abs z < 10 ^ 4300.
Proof.
  unfold int_limited.
  destruct (Nat.ltb_spec MAX_STR_DIGITS (count_digits s)) as [| Hlim];
    [discriminate |].
  intro H. replace 4300 with (Z.of_nat MAX_STR_DIGITS) by reflexivity.
  now apply (int_of_str_below s z MAX_STR_DIGITS).
Qed.

Lemma collect_ids_bound (rows : list dict) :
  forall ids ids',
    Forall (fun i => Z.abs i < 10 ^ 4300) ids ->
    collect_ids rows ids = Ok ids' ->
    Forall (fun i => Z.abs i < 10 ^ 4300) ids'.
Proof.
  induction rows as [| row rows IH]; intros ids ids' Hids H;
    cbn [collect_ids] in H; [inversion H; now subst |].
  destruct (dict_mem row (Some "Activation ID"%string)); [| now apply (IH ids)].
  destruct (dict_get row (Some "Activation ID"%string)) as [v |];
    [| now apply (IH ids)].
  destruct v as [s | | l]; cbn [int_of_value] in H; try discriminate.
  destruct (int_limited s) as [z |] eqn:E; [| now apply (IH ids)].
  apply (IH (ids ++ [z])); [| exact H].
  apply Forall_app. split; [exact Hids |].
  constructor; [now apply (int_limited_bound s) | constructor].
Qed.

(** No identifier that [get_ids_from_csv] delivers has more than 4300
    digits: the identifiers [main] passes on are within the limit that
    [format06] and [int_of_str] leave out. *)
Lemma read_identifiers_fit_the_limit (f : input_file) (ids : list Z) :
  get_ids_from_csv f = Ok ids -> Forall (fun i => Z.abs i < 10 ^ 4300) ids.
Proof.
  destruct f as [e | records | records e]; cbn [get_ids_from_csv]; intro H.
  - destruct e; inversion H; constructor.
  - apply (collect_ids_bound (dict_reader records) [] ids); [constructor | exact H].
  - destruct (collect_ids (dict_reader records) []); [| discriminate].
    destruct e; inversion H; constructor.
Qed.
